(** * Stream grants of the Snowflake provider: identifier codec and life cycle

    A shallow embedding of [pkg/resources/stream_grant.go]:
    the composite identifier [StreamGrantID], its encoder [String] and decoder
    [parseStreamGrantID], and the entry points [CreateStreamGrant],
    [ReadStreamGrant] and [UpdateStreamGrant].

    Go strings are byte sequences, so a string is a [list byte].  A Go call
    either returns or panics; a returned [error] is [None] for [nil]. *)

From Stdlib Require Import List Bool Arith Lia.
From Stdlib Require Import Strings.Byte.
From Stdlib Require Strings.String.
From Stdlib Require Import Decimal DecimalString DecimalNat.
Import ListNotations.
Import String.StringSyntax.
Local Open Scope string_scope.
Local Open Scope list_scope.

Set Implicit Arguments.

(** ** Go strings and the functions of package [strings] used by the resource *)

Definition gostring : Type := list byte.

(** A Go string literal, given by its bytes. *)
Definition str (s : String.string) : gostring := String.list_byte_of_string s.

(** [a == b] on strings. *)
Fixpoint streq (a b : gostring) : bool :=
  match a, b with
  | [], [] => true
  | x :: a', y :: b' => Byte.eqb x y && streq a' b'
  | _, _ => false
  end.

(** [strings.HasPrefix(s, prefix)]. *)
Fixpoint HasPrefix (s prefix : gostring) {struct prefix} : bool :=
  match prefix, s with
  | [], _ => true
  | p :: prefix', c :: s' => Byte.eqb c p && HasPrefix s' prefix'
  | _ :: _, [] => false
  end.

(** [strings.Index(s, substr)]: the index of the first instance of [substr]
    in [s]; Go's -1 is [None]. *)
Fixpoint Index (s substr : gostring) : option nat :=
  if HasPrefix s substr then Some 0
  else match s with
       | [] => None
       | _ :: s' => option_map S (Index s' substr)
       end.

(** [strings.Contains(s, substr)] is [Index(s, substr) >= 0]. *)
Definition Contains (s substr : gostring) : bool :=
  match Index s substr with Some _ => true | None => false end.

(** [strings.Count(s, substr)] for a non-empty [substr]: the loop
    [for { i := Index(s, substr); if i == -1 { return n }; n++;
    s = s[i+len(substr):] }].  Every round drops at least one byte, so
    [len(s)] rounds are enough ([Count_loop_fuel]). *)
Fixpoint Count_loop (fuel : nat) (s substr : gostring) : nat :=
  match fuel with
  | 0 => 0
  | S fuel' =>
      match Index s substr with
      | None => 0
      | Some i => S (Count_loop fuel' (skipn (i + length substr) s) substr)
      end
  end.

Definition Count (s substr : gostring) : nat :=
  Count_loop (length s) s substr.

(** The loop of [strings.genSplit(s, sep, 0, -1)] for a non-empty [sep]:
    [n] is [Count(s, sep)], the number of cuts still allowed. *)
Fixpoint genSplit_loop (n : nat) (s sep : gostring) : list gostring :=
  match n with
  | 0 => [s]
  | S n' =>
      match Index s sep with
      | None => [s]
      | Some m => firstn m s :: genSplit_loop n' (skipn (m + length sep) s) sep
      end
  end.

(** [strings.Split(s, sep)].  The resource only splits on the constant,
    non-empty separators ["|"], the snowflake delimiter and [","]; Go's
    branch for an empty separator (explode into UTF-8 sequences) is not
    part of the embedding and is rendered as the unsplit string. *)
Definition Split (s sep : gostring) : list gostring :=
  match sep with
  | [] => [s]
  | _ :: _ => genSplit_loop (Count s sep) s sep
  end.

(** [strings.Join(elems, sep)]. *)
Fixpoint Join (elems : list gostring) (sep : gostring) : gostring :=
  match elems with
  | [] => []
  | [x] => x
  | x :: rest => x ++ sep ++ Join rest sep
  end.

(** [%v] of a bool and [%d] of a non-negative int, as [fmt] prints them. *)
Definition fmt_bool (b : bool) : gostring :=
  if b then str "true" else str "false".

Definition fmt_int (n : nat) : gostring :=
  str (NilEmpty.string_of_uint (Nat.to_uint n)).

(** ** Results of Go calls *)

(** A run-time panic: the only one the resource can raise is a slice index
    out of range. *)
Inductive panic : Type :=
| IndexOutOfRange (index len : nat).

Inductive outcome (A : Type) : Type :=
| Returns (a : A)
| Panics (p : panic).
Arguments Panics {A} p.

Definition obind {A B : Type} (o : outcome A) (k : A -> outcome B) : outcome B :=
  match o with
  | Returns a => k a
  | Panics p => Panics p
  end.

Notation "x <-! o ;; k" := (obind o (fun x => k))
  (at level 61, o at next level, right associativity).

(** [a[i]] on a slice. *)
Definition index (a : list gostring) (i : nat) : outcome gostring :=
  match nth_error a i with
  | Some x => Returns x
  | None => Panics (IndexOutOfRange i (length a))
  end.

(** The two variants of [snowflake.GrantBuilder] the resource selects. *)
Inductive GrantBuilder : Type :=
| FutureStreamGrant (db schema : gostring)
| StreamGrant (db schema stream : gostring).

(** The statements a builder renders, kept symbolic. *)
Inductive statement : Type :=
| Show (b : GrantBuilder)
| Grant (b : GrantBuilder) (role : gostring) (priv : gostring) (grantOption : bool)
| Revoke (b : GrantBuilder) (role : gostring) (priv : gostring).

(** Errors, by where they are made: [errors.New], [fmt.Errorf], or a value
    handed up by the SQL driver ([sql.ErrNoRows] or another one), kept with
    the statement that failed. *)
Inductive sql_error : Type :=
| ErrNoRows
| ErrDriver (msg : gostring).

Inductive error : Type :=
| errors_New (msg : gostring)
| fmt_Errorf (msg : gostring)
| DriverError (q : statement) (e : sql_error).

(** A pair of a pointer and an [error] of which exactly one side is set. *)
Inductive result (A : Type) : Type :=
| Ok (a : A)
| Err (e : error).
Arguments Err {A} e.

(** ** The identifier and its codec *)

(** The delimiter of the current format, U+2744 U+FE0F in UTF-8. *)
Definition snowflake : gostring := [xe2; x9d; x84; xef; xb8; x8f].

Record StreamGrantID : Type := NewStreamGrantID {
  DatabaseName : gostring;
  SchemaName : gostring;
  ObjectName : gostring;
  Privilege : gostring;
  Roles : list gostring;
  WithGrantOption : bool
}.

(** The method [String()] of [StreamGrantID]. *)
Definition StreamGrantID_String (v : StreamGrantID) : gostring :=
  let roles := Join (Roles v) (str ",") in
  DatabaseName v ++ snowflake ++ SchemaName v ++ snowflake ++
  ObjectName v ++ snowflake ++ Privilege v ++ snowflake ++
  fmt_bool (WithGrantOption v) ++ snowflake ++ roles.

(** Modelled from the spec: [helpers.SplitStringToSlice], which is not among
    the sources.  The role-list segment is split on the separator, and an
    empty segment gives the empty list, not a single empty role. *)
Definition SplitStringToSlice (value sep : gostring) : list gostring :=
  match value with
  | [] => []
  | _ :: _ => Split value sep
  end.

(** The message of the segment-count error. *)
Definition unexpected_parts (n : nat) : error :=
  fmt_Errorf (str "unexpected number of ID parts (" ++ fmt_int n ++
              str "), expected 6").

(** [func parseStreamGrantID(s string)], returning the identifier or an
    error.  The fields
    of each struct literal are evaluated in the order they are written. *)
Definition parseStreamGrantID (s : gostring) : outcome (result StreamGrantID) :=
  if negb (Contains s snowflake) then
    let idParts := Split s (str "|") in
    databaseName <-! index idParts 0 ;;
    schemaName <-! index idParts 1 ;;
    objectName <-! index idParts 2 ;;
    privilege <-! index idParts 3 ;;
    let roles : list gostring := [] in
    withGrantOption <-! index idParts 4 ;;
    Returns (Ok {| DatabaseName := databaseName;
                   SchemaName := schemaName;
                   ObjectName := objectName;
                   Privilege := privilege;
                   Roles := roles;
                   WithGrantOption := streq withGrantOption (str "true") |})
  else
    let idParts := Split s snowflake in
    if negb (length idParts =? 6) then
      Returns (Err (unexpected_parts (length idParts)))
    else
      databaseName <-! index idParts 0 ;;
      schemaName <-! index idParts 1 ;;
      objectName <-! index idParts 2 ;;
      privilege <-! index idParts 3 ;;
      withGrantOption <-! index idParts 4 ;;
      roles <-! index idParts 5 ;;
      Returns (Ok {| DatabaseName := databaseName;
                     SchemaName := schemaName;
                     ObjectName := objectName;
                     Privilege := privilege;
                     Roles := SplitStringToSlice roles (str ",");
                     WithGrantOption := streq withGrantOption (str "true") |}).

(** ** The host's resource data and the SQL client *)

(** The record the host hands to the entry points, with the fields of
    [streamGrantSchema].  [Id] is the persisted identifier; [roles] is the
    value [d.Get] returns (the planned one, or what [d.Set] wrote);
    [prior_roles] is the value recorded before the change, the old side of
    [d.GetChange].  A [schema.Set] of strings is the list its [List()]
    enumerates. *)
Record ResourceData : Type := mkResourceData {
  Id : gostring;
  database_name : gostring;
  enable_multiple_grants : bool;
  on_future : bool;
  privilege : gostring;
  roles : list gostring;
  schema_name : gostring;
  stream_name : gostring;
  with_grant_option : bool;
  prior_roles : list gostring
}.

(** [d.State()]: a resource without an identifier has no state. *)
Definition State (d : ResourceData) : option ResourceData :=
  match Id d with
  | [] => None
  | _ :: _ => Some d
  end.

(** [d.GetOk("stream_name")]: the value, and whether it is set to something
    other than the zero value. *)
Definition GetOk_stream_name (d : ResourceData) : gostring * bool :=
  (stream_name d, negb (streq (stream_name d) [])).

(** Membership, difference and equality of [schema.Set]s of strings. *)
Definition Contains_elem (x : gostring) (s : list gostring) : bool :=
  existsb (streq x) s.

Definition Difference (s other : list gostring) : list gostring :=
  filter (fun x => negb (Contains_elem x other)) s.

Definition Equal (s other : list gostring) : bool :=
  forallb (fun x => Contains_elem x other) s &&
  forallb (fun x => Contains_elem x s) other.

(** [d.GetChange(key)], [d.HasChange(key)] and [d.HasChanges(keys...)].
    Every field but [roles] is [ForceNew], so within an update only
    [roles] can differ between the prior and the planned record. *)
Definition GetChange_roles (d : ResourceData) : list gostring * list gostring :=
  (prior_roles d, roles d).

Definition HasChange (d : ResourceData) (key : gostring) : bool :=
  if streq key (str "roles") then
    let (o, n) := GetChange_roles d in negb (Equal o n)
  else false.

Definition HasChanges (d : ResourceData) (keys : list gostring) : bool :=
  existsb (HasChange d) keys.

(** A row of [SHOW GRANTS]. *)
Record grant : Type := mkGrant {
  GranteeName : gostring;
  GrantPrivilege : gostring;
  GrantOption : bool
}.

Inductive reply : Type :=
| Done (rows : list grant)
| Failed (e : sql_error).

(** The SQL client behind [meta]: [driver] answers a statement given the
    statements issued before it; [issued] is the log of statements sent. *)
Record DB : Type := mkDB {
  driver : list statement -> statement -> reply;
  issued : list statement
}.

(** ** The monad of the entry points: the resource data and the client are
    threaded through, and a panic ends the call. *)

Definition world : Type := (ResourceData * DB)%type.

Definition M (A : Type) : Type := world -> outcome (A * world).

Definition ret {A : Type} (a : A) : M A := fun w => Returns (a, w).

Definition bind {A B : Type} (m : M A) (k : A -> M B) : M B :=
  fun w => match m w with
           | Returns (a, w') => k a w'
           | Panics p => Panics p
           end.

Definition lift {A : Type} (o : outcome A) : M A :=
  fun w => match o with
           | Returns a => Returns (a, w)
           | Panics p => Panics p
           end.

Definition get_d : M ResourceData := fun w => Returns (fst w, w).

Definition put_d (d : ResourceData) : M unit := fun w => Returns (tt, (d, snd w)).

Notation "x <- m ;; k" := (bind m (fun x => k))
  (at level 61, m at next level, right associativity).
Notation "m ;;; k" := (bind m (fun _ => k))
  (at level 61, right associativity).
(** Go's [if err := m; err != nil { return err }]. *)
Notation "'check' m ;; k" :=
  (bind m (fun err => match err with Some e => ret (Some e) | None => k end))
  (at level 61, m at next level, right associativity).

(** [snowflake.Exec] and the query behind [Show]: the statement is logged
    and the driver's answer returned. *)
Definition send (q : statement) : M reply :=
  fun w => let db := snd w in
           Returns (driver db (issued db) q,
                    (fst w, mkDB (driver db) (issued db ++ [q]))).

Definition Exec (q : statement) : M (option error) :=
  r <- send q ;;
  ret (match r with
       | Done _ => None
       | Failed e => Some (DriverError q e)
       end).

(** [d.SetId] and [d.Set]: the keys written by the resource are keys of
    [streamGrantSchema] with values of the declared type, so [d.Set]
    returns [nil]. *)
Definition SetId (v : gostring) : M unit :=
  d <- get_d ;;
  put_d (mkResourceData v (database_name d) (enable_multiple_grants d)
           (on_future d) (privilege d) (roles d) (schema_name d)
           (stream_name d) (with_grant_option d) (prior_roles d)).

Definition Set_database_name (v : gostring) : M (option error) :=
  d <- get_d ;;
  put_d (mkResourceData (Id d) v (enable_multiple_grants d)
           (on_future d) (privilege d) (roles d) (schema_name d)
           (stream_name d) (with_grant_option d) (prior_roles d)) ;;;
  ret None.

Definition Set_schema_name (v : gostring) : M (option error) :=
  d <- get_d ;;
  put_d (mkResourceData (Id d) (database_name d) (enable_multiple_grants d)
           (on_future d) (privilege d) (roles d) v
           (stream_name d) (with_grant_option d) (prior_roles d)) ;;;
  ret None.

Definition Set_stream_name (v : gostring) : M (option error) :=
  d <- get_d ;;
  put_d (mkResourceData (Id d) (database_name d) (enable_multiple_grants d)
           (on_future d) (privilege d) (roles d) (schema_name d)
           v (with_grant_option d) (prior_roles d)) ;;;
  ret None.

Definition Set_on_future (v : bool) : M (option error) :=
  d <- get_d ;;
  put_d (mkResourceData (Id d) (database_name d) (enable_multiple_grants d)
           v (privilege d) (roles d) (schema_name d)
           (stream_name d) (with_grant_option d) (prior_roles d)) ;;;
  ret None.

Definition Set_privilege (v : gostring) : M (option error) :=
  d <- get_d ;;
  put_d (mkResourceData (Id d) (database_name d) (enable_multiple_grants d)
           (on_future d) v (roles d) (schema_name d)
           (stream_name d) (with_grant_option d) (prior_roles d)) ;;;
  ret None.

Definition Set_with_grant_option (v : bool) : M (option error) :=
  d <- get_d ;;
  put_d (mkResourceData (Id d) (database_name d) (enable_multiple_grants d)
           (on_future d) (privilege d) (roles d) (schema_name d)
           (stream_name d) v (prior_roles d)) ;;;
  ret None.

Definition Set_roles (v : list gostring) : M (option error) :=
  d <- get_d ;;
  put_d (mkResourceData (Id d) (database_name d) (enable_multiple_grants d)
           (on_future d) (privilege d) v (schema_name d)
           (stream_name d) (with_grant_option d) (prior_roles d)) ;;;
  ret None.

(** ** The generic grant life cycle *)

(** Modelled from the spec: [createGenericGrantRolesAndShares], which is not
    among the sources.  For each role a [Grant] statement is executed; the
    first failure ends the loop and is returned, with no rollback.  The
    stream grant passes no shares. *)
Fixpoint createGenericGrantRolesAndShares (builder : GrantBuilder)
    (priv : gostring) (grantOption : bool) (roles shares : list gostring)
    : M (option error) :=
  match roles with
  | [] => ret None
  | role :: rest =>
      check Exec (Grant builder role priv grantOption) ;;
      createGenericGrantRolesAndShares builder priv grantOption rest shares
  end.

(** Modelled from the spec: [deleteGenericGrantRolesAndShares], which is not
    among the sources.  For each role a [Revoke] statement is executed; the
    first failure ends the loop and is returned. *)
Fixpoint deleteGenericGrantRolesAndShares (builder : GrantBuilder)
    (priv : gostring) (roles shares : list gostring) : M (option error) :=
  match roles with
  | [] => ret None
  | role :: rest =>
      check Exec (Revoke builder role priv) ;;
      deleteGenericGrantRolesAndShares builder priv rest shares
  end.

(** Modelled from the spec: [createGenericGrant], which is not among the
    sources.  The privilege, the grant option and the roles are read from
    the resource data, and one [Grant] is executed for each declared
    role. *)
Definition createGenericGrant (builder : GrantBuilder) : M (option error) :=
  d <- get_d ;;
  let priv := privilege d in
  let grantOption := with_grant_option d in
  let roles := roles d in
  createGenericGrantRolesAndShares builder priv grantOption roles [].

(** Modelled from the spec: [changeDiff], which is not among the sources.
    [toAdd] is desired minus previous, [toRevoke] is previous minus
    desired. *)
Definition changeDiff_roles (d : ResourceData) : list gostring * list gostring :=
  let (o, n) := GetChange_roles d in
  (Difference n o, Difference o n).

(** Modelled from the spec: [readGenericGrant], which is not among the
    sources.  The builder's [Show] query is issued.  When the driver reports
    no rows the target is gone: the resource state is cleared and no error
    is returned.  Another driver error is returned.  Otherwise the roles
    holding the resource's privilege are written back. *)
Definition readGenericGrant (builder : GrantBuilder) (futureObjects : bool)
    : M (option error) :=
  r <- send (Show builder) ;;
  match r with
  | Failed ErrNoRows => SetId [] ;;; ret None
  | Failed e => ret (Some (DriverError (Show builder) e))
  | Done rows =>
      d <- get_d ;;
      let held := filter (fun g => streq (GrantPrivilege g) (privilege d)) rows in
      check Set_roles (map GranteeName held) ;;
      ret None
  end.

(** ** The entry points of the stream grant *)

(** [ReadStreamGrant] implements [schema.ReadFunc]. *)
Definition ReadStreamGrant : M (option error) :=
  d <- get_d ;;
  parsed <- lift (parseStreamGrantID (Id d)) ;;
  match parsed with
  | Err err => ret (Some err)
  | Ok grantID =>
      check Set_database_name (DatabaseName grantID) ;;
      check Set_schema_name (SchemaName grantID) ;;
      let onFuture := if streq (ObjectName grantID) [] then true else false in
      check Set_stream_name (ObjectName grantID) ;;
      check Set_on_future onFuture ;;
      check Set_privilege (Privilege grantID) ;;
      check Set_with_grant_option (WithGrantOption grantID) ;;
      let builder :=
        if onFuture
        then FutureStreamGrant (DatabaseName grantID) (SchemaName grantID)
        else StreamGrant (DatabaseName grantID) (SchemaName grantID)
                         (ObjectName grantID) in
      readGenericGrant builder onFuture
  end.

(** [CreateStreamGrant] implements [schema.CreateFunc]. *)
Definition CreateStreamGrant : M (option error) :=
  d <- get_d ;;
  let streamName :=
    let (name, ok) := GetOk_stream_name d in if ok then name else [] in
  let databaseName := database_name d in
  let schemaName := schema_name d in
  let privilege := privilege d in
  let onFuture := on_future d in
  let withGrantOption := with_grant_option d in
  let roles := roles d in
  if streq streamName [] && negb onFuture then
    ret (Some (errors_New (str "stream_name must be set unless on_future is true")))
  else if negb (streq streamName []) && onFuture then
    ret (Some (errors_New (str "stream_name must be empty if on_future is true")))
  else if streq schemaName [] && negb onFuture then
    ret (Some (errors_New (str "schema_name must be set unless on_future is true")))
  else
    let builder :=
      if onFuture
      then FutureStreamGrant databaseName schemaName
      else StreamGrant databaseName schemaName streamName in
    check createGenericGrant builder ;;
    let grantID := NewStreamGrantID databaseName schemaName streamName
                                    privilege roles withGrantOption in
    SetId (StreamGrantID_String grantID) ;;;
    ReadStreamGrant.

(** [UpdateStreamGrant] implements [schema.UpdateFunc]. *)
Definition UpdateStreamGrant : M (option error) :=
  d <- get_d ;;
  if negb (HasChanges d [str "roles"]) then ret None
  else
    let '(rolesToAdd, rolesToRevoke) :=
      if HasChange d (str "roles") then changeDiff_roles d else ([], []) in
    parsed <- lift (parseStreamGrantID (Id d)) ;;
    match parsed with
    | Err err => ret (Some err)
    | Ok grantID =>
        let onFuture := streq (ObjectName grantID) [] in
        let builder :=
          if onFuture
          then FutureStreamGrant (DatabaseName grantID) (SchemaName grantID)
          else StreamGrant (DatabaseName grantID) (SchemaName grantID)
                           (ObjectName grantID) in
        check deleteGenericGrantRolesAndShares builder (Privilege grantID)
                rolesToRevoke [] ;;
        check createGenericGrantRolesAndShares builder (Privilege grantID)
                (WithGrantOption grantID) rolesToAdd [] ;;
        ReadStreamGrant
    end.

(** [DeleteStreamGrant] implements [schema.DeleteFunc].  The generic
    [deleteGenericGrant] it hands over to is not among the sources and is
    taken as a parameter. *)
Definition DeleteStreamGrant (deleteGenericGrant : GrantBuilder -> M (option error))
    : M (option error) :=
  d <- get_d ;;
  parsed <- lift (parseStreamGrantID (Id d)) ;;
  match parsed with
  | Err err => ret (Some err)
  | Ok grantID =>
      let onFuture := streq (ObjectName grantID) [] in
      let builder :=
        if onFuture
        then FutureStreamGrant (DatabaseName grantID) (SchemaName grantID)
        else StreamGrant (DatabaseName grantID) (SchemaName grantID)
                         (ObjectName grantID) in
      deleteGenericGrant builder
  end.

(** ** Vocabulary of the properties *)

(** [x] holds no instance of [sep]. *)
Definition free (sep x : gostring) : Prop := Contains x sep = false.

(** The identifiers the codec is meant for: no field holds the delimiter,
    and no role name holds the delimiter or a comma. *)
Definition valid (id : StreamGrantID) : bool :=
  negb (Contains (DatabaseName id) snowflake) &&
  negb (Contains (SchemaName id) snowflake) &&
  negb (Contains (ObjectName id) snowflake) &&
  negb (Contains (Privilege id) snowflake) &&
  forallb (fun role => negb (Contains role snowflake) &&
                       negb (Contains role (str ","))) (Roles id).

(** [strconv.ParseBool]: the spellings Go reads as a boolean. *)
Definition ParseBool (s : gostring) : option bool :=
  if existsb (streq s) (map str ["1"; "t"; "T"; "TRUE"; "true"; "True"])
  then Some true
  else if existsb (streq s) (map str ["0"; "f"; "F"; "FALSE"; "false"; "False"])
  then Some false
  else None.

(** Sample identifiers. *)
Definition id_two_roles : StreamGrantID :=
  NewStreamGrantID (str "D") (str "S") (str "T") (str "SELECT")
                   [str "R1"; str "R2"] false.

Definition id_no_role : StreamGrantID :=
  NewStreamGrantID (str "D") (str "S") (str "T") (str "SELECT") [] true.

Definition id_empty_role : StreamGrantID :=
  NewStreamGrantID (str "D") (str "S") (str "T") (str "SELECT") [[]] true.

Definition id_comma_role : StreamGrantID :=
  NewStreamGrantID (str "D") (str "S") (str "T") (str "SELECT") [str "a,b"] false.

Definition id_split_roles : StreamGrantID :=
  NewStreamGrantID (str "D") (str "S") (str "T") (str "SELECT")
                   [str "a"; str "b"] false.

(** A current-format string whose grant-option segment is no boolean. *)
Definition id_string_maybe : gostring :=
  str "D" ++ snowflake ++ str "S" ++ snowflake ++ str "T" ++ snowflake ++
  str "SELECT" ++ snowflake ++ str "maybe" ++ snowflake ++ str "R1".

(** The builder the entry points select for a decoded identifier: the
    future-objects variant when the object name is empty. *)
Definition builder_for (grantID : StreamGrantID) : GrantBuilder :=
  if streq (ObjectName grantID) []
  then FutureStreamGrant (DatabaseName grantID) (SchemaName grantID)
  else StreamGrant (DatabaseName grantID) (SchemaName grantID) (ObjectName grantID).

(** The three errors of the validation block of [CreateStreamGrant]. *)
Definition validation_errors : list error :=
  [errors_New (str "stream_name must be set unless on_future is true");
   errors_New (str "stream_name must be empty if on_future is true");
   errors_New (str "schema_name must be set unless on_future is true")].

(** The three field combinations the validation block refuses. *)
Definition rejected (d : ResourceData) : Prop :=
  (stream_name d = [] /\ on_future d = false) \/
  (stream_name d <> [] /\ on_future d = true) \/
  (schema_name d = [] /\ on_future d = false).

(** The identifier [CreateStreamGrant] builds from the resource data. *)
Definition declared_id (d : ResourceData) : StreamGrantID :=
  NewStreamGrantID (database_name d) (schema_name d) (stream_name d)
                   (privilege d) (roles d) (with_grant_option d).

(** [done] is an initial part of [plan]. *)
Definition prefix_of (done plan : list statement) : Prop :=
  exists rest, plan = done ++ rest.

(** The statements of an update, in the order the plan has them: the
    revokes of the roles no longer wanted, the grants of the new roles,
    and the closing [Show]. *)
Definition update_plan (d : ResourceData) (grantID : StreamGrantID) : list statement :=
  map (fun role => Revoke (builder_for grantID) role (Privilege grantID))
      (Difference (prior_roles d) (roles d)) ++
  map (fun role => Grant (builder_for grantID) role (Privilege grantID)
                         (WithGrantOption grantID))
      (Difference (roles d) (prior_roles d)) ++
  [Show (builder_for grantID)].

(** Sample resource data and clients: one that accepts every statement,
    one that reports no rows for [Show]. *)
Definition d_create : ResourceData :=
  mkResourceData [] (str "D") false false (str "SELECT")
    [str "R1"; str "R2"] (str "S") (str "T") false [].

Definition d_update : ResourceData :=
  mkResourceData (StreamGrantID_String id_two_roles) (str "D") false false
    (str "SELECT") [str "B"; str "C"] (str "S") (str "T") false
    [str "A"; str "B"].

Definition db_ok : DB := mkDB (fun _ _ => Done []) [].

Definition db_gone : DB :=
  mkDB (fun _ q => match q with Show _ => Failed ErrNoRows | _ => Done [] end) [].

(** The builder [CreateStreamGrant] selects from the resource data. *)
Definition create_builder (d : ResourceData) : GrantBuilder :=
  if on_future d
  then FutureStreamGrant (database_name d) (schema_name d)
  else StreamGrant (database_name d) (schema_name d) (stream_name d).

(** The five texts an encoded identifier is joined from, besides the grant
    option: the four names and the comma-joined role list. *)
Definition encoded_fields (id : StreamGrantID) : list gostring :=
  [DatabaseName id; SchemaName id; ObjectName id; Privilege id;
   Join (Roles id) (str ",")].

(** No encoded field holds the delimiter. *)
Definition delimiter_free (id : StreamGrantID) : bool :=
  forallb (fun f => negb (Contains f snowflake)) (encoded_fields id).

(** Resource data without an identifier, and with a field that holds the
    delimiter. *)
Definition d_no_id : ResourceData :=
  mkResourceData [] (str "D") false false (str "SELECT")
    [str "B"; str "C"] (str "S") (str "T") false [str "A"; str "B"].

Definition d_bad_id : ResourceData :=
  mkResourceData (snowflake ++ str "a|b") (str "D") false false (str "SELECT")
    [str "B"; str "C"] (str "S") (str "T") false [str "A"; str "B"].

Definition d_delimiter : ResourceData :=
  mkResourceData [] (str "D" ++ snowflake ++ str "B") false false (str "SELECT")
    [str "R1"] (str "S") (str "T") false [].

(** The resource data with another identifier. *)
Definition with_Id (v : gostring) (d : ResourceData) : ResourceData :=
  mkResourceData v (database_name d) (enable_multiple_grants d)
    (on_future d) (privilege d) (roles d) (schema_name d)
    (stream_name d) (with_grant_option d) (prior_roles d).

(** Two identifiers that differ at most in their role lists. *)
Definition same_target (g1 g2 : StreamGrantID) : Prop :=
  DatabaseName g1 = DatabaseName g2 /\ SchemaName g1 = SchemaName g2 /\
  ObjectName g1 = ObjectName g2 /\ Privilege g1 = Privilege g2 /\
  WithGrantOption g1 = WithGrantOption g2.


(** What a run of [plan] sends to a client with log [log] when each
    statement is sent in turn until the driver refuses one: the statements
    up to and including the first refused one. *)
Fixpoint sent (drv : list statement -> statement -> reply)
    (log plan : list statement) : list statement :=
  match plan with
  | [] => []
  | q :: rest =>
      match drv log q with
      | Done _ => q :: sent drv (log ++ [q]) rest
      | Failed _ => [q]
      end
  end.

(** The first statement of [plan] the driver refuses, with its error. *)
Fixpoint refused (drv : list statement -> statement -> reply)
    (log plan : list statement) : option (statement * sql_error) :=
  match plan with
  | [] => None
  | q :: rest =>
      match drv log q with
      | Done _ => refused drv (log ++ [q]) rest
      | Failed e => Some (q, e)
      end
  end.

(** The error of a role loop whose first refused statement is given. *)
Definition loop_error (f : option (statement * sql_error)) : option error :=
  match f with
  | None => None
  | Some (q, e) => Some (DriverError q e)
  end.

(** The error of an update whose first refused statement is given: a
    no-rows answer to the closing [Show] is not an error. *)
Definition update_error (f : option (statement * sql_error)) : option error :=
  match f with
  | None => None
  | Some (Show _, ErrNoRows) => None
  | Some (q, e) => Some (DriverError q e)
  end.

(** A warehouse that keeps what it is told, for one privilege on one
    target: [holders held log] are the roles holding the privilege after
    the statements of [log], from the roles [held]; it accepts every
    statement and answers [Show] with one row per holder. *)
Definition grant_to (role : gostring) (held : list gostring) : list gostring :=
  if Contains_elem role held then held else held ++ [role].

Definition revoke_from (role : gostring) (held : list gostring) : list gostring :=
  filter (fun x => negb (streq x role)) held.

Fixpoint holders (held : list gostring) (log : list statement) : list gostring :=
  match log with
  | [] => held
  | Grant _ role _ _ :: rest => holders (grant_to role held) rest
  | Revoke _ role _ :: rest => holders (revoke_from role held) rest
  | Show _ :: rest => holders held rest
  end.

Definition warehouse (priv : gostring) (grantOption : bool) (held : list gostring)
    : list statement -> statement -> reply :=
  fun log q =>
    match q with
    | Show _ => Done (map (fun role => mkGrant role priv grantOption) (holders held log))
    | _ => Done []
    end.

(** The resource data the host hands to the next update: what the last
    call left is the recorded state, so the roles it wrote are the previous
    ones, and [desired] is planned again. *)
Definition next_update (desired : list gostring) (d : ResourceData) : ResourceData :=
  mkResourceData (Id d) (database_name d) (enable_multiple_grants d)
    (on_future d) (privilege d) desired (schema_name d)
    (stream_name d) (with_grant_option d) (roles d).

(** * Properties *)

(** ** Strings *)

Lemma byte_eqb_refl (x : byte) : Byte.eqb x x = true.
Proof. now apply byte_dec_lb. Qed.

Lemma streq_true (a b : gostring) : streq a b = true <-> a = b.
Proof.
  revert b; induction a as [|x a IH]; intros [|y b]; simpl;
    try (split; [discriminate | congruence]); try tauto.
  rewrite andb_true_iff, IH; split.
  - intros [H ->]; apply byte_dec_bl in H; congruence.
  - intros [= -> ->]; split; [apply byte_eqb_refl | reflexivity].
Qed.

Lemma streq_refl (a : gostring) : streq a a = true.
Proof. now apply streq_true. Qed.

Lemma streq_false (a b : gostring) : streq a b = false <-> a <> b.
Proof.
  rewrite <- streq_true; destruct (streq a b); split; congruence.
Qed.

Lemma streq_nil (a : gostring) : streq a [] = match a with [] => true | _ => false end.
Proof. now destruct a. Qed.

Lemma HasPrefix_true (s p : gostring) :
  HasPrefix s p = true <-> exists r, s = p ++ r.
Proof.
  revert s; induction p as [|x p IH]; intros s; simpl.
  - split; [intros _; now exists s | reflexivity].
  - destruct s as [|y s].
    + split; [discriminate | intros [r Hr]; discriminate].
    + rewrite andb_true_iff, IH; split.
      * intros [H [r ->]]; apply byte_dec_bl in H; subst; now exists r.
      * intros [r [= -> ->]]; split; [apply byte_eqb_refl | now exists r].
Qed.

Lemma HasPrefix_app (p r : gostring) : HasPrefix (p ++ r) p = true.
Proof. apply HasPrefix_true; now exists r. Qed.

Lemma HasPrefix_length (s p : gostring) :
  HasPrefix s p = true -> length p <= length s.
Proof.
  intros H; apply HasPrefix_true in H as [r ->]; rewrite length_app; lia.
Qed.

Lemma Index_eq (s sub : gostring) :
  Index s sub =
  if HasPrefix s sub then Some 0
  else match s with
       | [] => None
       | _ :: s' => option_map S (Index s' sub)
       end.
Proof. now destruct s. Qed.

Lemma Index_bound (s sub : gostring) (i : nat) :
  Index s sub = Some i -> i + length sub <= length s.
Proof.
  revert i; induction s as [|a s IH]; intros i; rewrite Index_eq.
  - destruct (HasPrefix [] sub) eqn:E; [|discriminate].
    intros [= <-]; now apply HasPrefix_length in E.
  - destruct (HasPrefix (a :: s) sub) eqn:E.
    + intros [= <-]; now apply HasPrefix_length in E.
    + destruct (Index s sub) as [j|]; simpl; [|discriminate].
      intros [= <-]; specialize (IH j eq_refl); simpl; lia.
Qed.

Lemma Index_None_cons (a : byte) (s sub : gostring) :
  Index (a :: s) sub = None ->
  HasPrefix (a :: s) sub = false /\ Index s sub = None.
Proof.
  rewrite Index_eq; destruct (HasPrefix (a :: s) sub); [discriminate|].
  destruct (Index s sub); simpl; [discriminate | tauto].
Qed.

(** The rounds of [Count] are bounded by the length of the string: more
    fuel changes nothing. *)
Lemma Count_loop_fuel (sub : gostring) :
  sub <> [] ->
  forall f1 f2 s, length s <= f1 -> length s <= f2 ->
  Count_loop f1 s sub = Count_loop f2 s sub.
Proof.
  intros Hsub; induction f1 as [|f1 IH]; intros f2 s H1 H2.
  - destruct s; [|simpl in H1; lia].
    destruct f2; simpl; [reflexivity|].
    destruct sub; [congruence | reflexivity].
  - destruct f2 as [|f2].
    + destruct s; [|simpl in H2; lia].
      simpl; destruct sub; [congruence | reflexivity].
    + simpl; destruct (Index s sub) as [i|] eqn:E; [|reflexivity].
      apply Index_bound in E.
      assert (0 < length sub) by (destruct sub; [congruence | simpl; lia]).
      f_equal; apply IH; rewrite length_skipn; lia.
Qed.

(** *** Splitting what was joined

    A separator whose first byte does not occur again in it cannot overlap
    a copy of itself.  For such a separator, splitting a join of
    separator-free pieces gives the pieces back. *)
Section SplitJoin.
Variables (sep : gostring) (c : byte) (t : gostring).
Hypothesis sep_eq : sep = c :: t.
Hypothesis c_fresh : ~ In c t.

Lemma HasPrefix_before_sep (x rest : gostring) :
  x <> [] -> HasPrefix x sep = false ->
  HasPrefix (x ++ sep ++ rest) sep = false.
Proof.
  intros Hx Hp; destruct (HasPrefix (x ++ sep ++ rest) sep) eqn:E; [|reflexivity].
  apply HasPrefix_true in E as [r E].
  apply app_eq_app in E as [l [[-> _] | [Hsep Hl]]].
  - now rewrite HasPrefix_app in Hp.
  - destruct l as [|c' l].
    + rewrite app_nil_r in Hsep; subst x.
      pose proof (HasPrefix_app sep []) as Q; rewrite app_nil_r in Q; congruence.
    + rewrite sep_eq in Hl, Hsep; injection Hl as -> _.
      destruct x as [|a x]; [congruence|].
      injection Hsep as _ Ht; exfalso; apply c_fresh; rewrite Ht.
      apply in_or_app; right; now left.
Qed.

Lemma Index_before_sep (x rest : gostring) :
  Index x sep = None -> Index (x ++ sep ++ rest) sep = Some (length x).
Proof.
  induction x as [|a x IH]; intros Hx.
  - rewrite app_nil_l, Index_eq, HasPrefix_app; reflexivity.
  - apply Index_None_cons in Hx as [Hp Hx].
    rewrite Index_eq, HasPrefix_before_sep by (congruence || assumption).
    rewrite <- app_comm_cons, (IH Hx); reflexivity.
Qed.

Lemma skipn_past_sep (x rest : gostring) :
  skipn (length x + length sep) (x ++ sep ++ rest) = rest.
Proof.
  rewrite app_assoc, <- length_app, skipn_app, skipn_all, Nat.sub_diag.
  reflexivity.
Qed.

Lemma firstn_before_sep (x rest : gostring) :
  firstn (length x) (x ++ rest) = x.
Proof.
  rewrite firstn_app, firstn_all, Nat.sub_diag; simpl; apply app_nil_r.
Qed.

Lemma free_Index (x : gostring) : free sep x -> Index x sep = None.
Proof. unfold free, Contains; now destruct (Index x sep). Qed.

Lemma Join_cons2 (x y : gostring) (ys : list gostring) :
  Join (x :: y :: ys) sep = x ++ sep ++ Join (y :: ys) sep.
Proof. reflexivity. Qed.

Lemma Count_loop_Join (xs : list gostring) :
  forall x fuel, Forall (free sep) (x :: xs) ->
  length (Join (x :: xs) sep) <= fuel ->
  Count_loop fuel (Join (x :: xs) sep) sep = length xs.
Proof.
  induction xs as [|y ys IH]; intros x fuel Hf Hl.
  - inversion_clear Hf as [|? ? Hx _]; apply free_Index in Hx.
    destruct fuel; simpl in *; [reflexivity | now rewrite Hx].
  - inversion_clear Hf as [|? ? Hx Hys]; apply free_Index in Hx.
    rewrite Join_cons2 in *.
    assert (Hs : 0 < length sep) by (rewrite sep_eq; simpl; lia).
    rewrite !length_app in Hl.
    destruct fuel as [|fuel]; [lia|].
    cbn [Count_loop]; rewrite Index_before_sep, skipn_past_sep by assumption.
    simpl; f_equal; apply IH; [assumption | lia].
Qed.

Lemma genSplit_loop_Join (xs : list gostring) :
  forall x n, Forall (free sep) (x :: xs) -> length xs <= n ->
  genSplit_loop n (Join (x :: xs) sep) sep = x :: xs.
Proof.
  induction xs as [|y ys IH]; intros x n Hf Hn.
  - inversion_clear Hf as [|? ? Hx _]; apply free_Index in Hx.
    destruct n; simpl in *; [reflexivity | now rewrite Hx].
  - inversion_clear Hf as [|? ? Hx Hys]; apply free_Index in Hx.
    rewrite Join_cons2; simpl in Hn.
    destruct n as [|n]; [lia|].
    cbn [genSplit_loop].
    rewrite Index_before_sep, skipn_past_sep, firstn_before_sep by assumption.
    rewrite IH; [reflexivity | assumption | lia].
Qed.

Theorem Split_Join (x : gostring) (xs : list gostring) :
  Forall (free sep) (x :: xs) -> Split (Join (x :: xs) sep) sep = x :: xs.
Proof.
  intros Hf; unfold Split, Count.
  rewrite Count_loop_Join by (assumption || lia).
  rewrite sep_eq at 1; now apply genSplit_loop_Join.
Qed.

Lemma Contains_Join (x y : gostring) (ys : list gostring) :
  free sep x -> Contains (Join (x :: y :: ys) sep) sep = true.
Proof.
  intros Hx; apply free_Index in Hx.
  unfold Contains; now rewrite Join_cons2, Index_before_sep.
Qed.
End SplitJoin.

(** A byte that is not in the separator cannot help to form one. *)
Lemma Index_across_byte (sep x y : gostring) (b : byte) :
  sep <> [] -> ~ In b sep ->
  Index x sep = None -> Index y sep = None ->
  Index (x ++ b :: y) sep = None.
Proof.
  intros Hsep Hb Hx Hy; induction x as [|a x IH].
  - rewrite app_nil_l, Index_eq, Hy.
    destruct (HasPrefix (b :: y) sep) eqn:E; [|reflexivity].
    apply HasPrefix_true in E as [r E].
    destruct sep as [|p sep]; [congruence|].
    injection E as -> _; exfalso; apply Hb; now left.
  - apply Index_None_cons in Hx as [Hp Hx].
    rewrite <- app_comm_cons, Index_eq, (IH Hx).
    destruct (HasPrefix (a :: x ++ b :: y) sep) eqn:E; [|reflexivity].
    apply HasPrefix_true in E as [r E].
    rewrite app_comm_cons in E.
    apply app_eq_app in E as [l [[Hax _] | [Hs Hl]]].
    + rewrite Hax, HasPrefix_app in Hp; discriminate.
    + destruct l as [|b' l].
      * rewrite app_nil_r in Hs; subst sep.
        pose proof (HasPrefix_app (a :: x) []) as Q.
        rewrite app_nil_r in Q; congruence.
      * injection Hl as -> _; exfalso; apply Hb; rewrite Hs.
        apply in_or_app; right; now left.
Qed.

Lemma Contains_false (s sub : gostring) :
  Contains s sub = false <-> Index s sub = None.
Proof. unfold Contains; destruct (Index s sub); split; congruence. Qed.

Lemma Join_free_of (sep : gostring) (b : byte) (xs : list gostring) :
  sep <> [] -> ~ In b sep ->
  Forall (fun x => Contains x sep = false) xs ->
  Contains (Join xs [b]) sep = false.
Proof.
  intros Hsep Hb; induction xs as [|x [|y ys] IH]; intros Hf.
  - destruct sep; [congruence | reflexivity].
  - now inversion_clear Hf.
  - inversion_clear Hf as [|? ? Hx Hys].
    change (Join (x :: y :: ys) [b]) with (x ++ b :: Join (y :: ys) [b]).
    apply Contains_false, Index_across_byte; try assumption.
    + now apply Contains_false.
    + now apply Contains_false, IH.
Qed.

(** The snowflake delimiter and the one-byte separators start with a byte
    that does not occur in them again. *)
Lemma snowflake_fresh : ~ In xe2 [x9d; x84; xef; xb8; x8f].
Proof. simpl; intuition discriminate. Qed.

Lemma comma_not_in_snowflake : ~ In x2c snowflake.
Proof. simpl; intuition discriminate. Qed.

Lemma pipe_not_in_snowflake : ~ In x7c snowflake.
Proof. simpl; intuition discriminate. Qed.

Lemma Split_Join_snowflake (x : gostring) (xs : list gostring) :
  Forall (fun y => Contains y snowflake = false) (x :: xs) ->
  Split (Join (x :: xs) snowflake) snowflake = x :: xs.
Proof. exact (Split_Join (sep := snowflake) eq_refl snowflake_fresh (x := x) (xs := xs)). Qed.

Lemma Split_Join_byte (b : byte) (x : gostring) (xs : list gostring) :
  Forall (fun y => Contains y [b] = false) (x :: xs) ->
  Split (Join (x :: xs) [b]) [b] = x :: xs.
Proof.
  exact (Split_Join (sep := [b]) eq_refl (fun H : In b [] => H) (x := x) (xs := xs)).
Qed.

Lemma SplitStringToSlice_Join (b : byte) (xs : list gostring) :
  Forall (fun y => Contains y [b] = false) xs -> xs <> [[]] ->
  SplitStringToSlice (Join xs [b]) [b] = xs.
Proof.
  intros Hf Hne; destruct xs as [|x xs]; [reflexivity|].
  assert (E : Join (x :: xs) [b] <> []).
  { destruct xs as [|y ys]; [simpl; intros Hx; apply Hne; now rewrite Hx|].
    change (x ++ b :: Join (y :: ys) [b] <> []); now destruct x. }
  unfold SplitStringToSlice.
  destruct (Join (x :: xs) [b]) eqn:J; [congruence|].
  rewrite <- J; now apply Split_Join_byte.
Qed.

Lemma streq_fmt_bool (b : bool) : streq (fmt_bool b) (str "true") = b.
Proof. now destruct b. Qed.

Lemma String_as_Join (v : StreamGrantID) :
  StreamGrantID_String v =
  Join [DatabaseName v; SchemaName v; ObjectName v; Privilege v;
        fmt_bool (WithGrantOption v); Join (Roles v) (str ",")] snowflake.
Proof. reflexivity. Qed.

(** ** The codec *)

Lemma valid_fields (id : StreamGrantID) :
  valid id = true ->
  free snowflake (DatabaseName id) /\ free snowflake (SchemaName id) /\
  free snowflake (ObjectName id) /\ free snowflake (Privilege id) /\
  Forall (free snowflake) (Roles id) /\ Forall (free (str ",")) (Roles id).
Proof.
  unfold valid, free; rewrite !andb_true_iff, !negb_true_iff, forallb_forall.
  intros [[[[H1 H2] H3] H4] H5]; repeat split; try assumption;
    apply Forall_forall; intros r Hr; specialize (H5 r Hr);
    rewrite andb_true_iff, !negb_true_iff in H5; tauto.
Qed.

Lemma fmt_bool_free (b : bool) : free snowflake (fmt_bool b).
Proof. now destruct b. Qed.

(** The six segments of an encoded valid identifier are its six fields. *)
Lemma Split_String (id : StreamGrantID) :
  valid id = true ->
  Split (StreamGrantID_String id) snowflake =
  [DatabaseName id; SchemaName id; ObjectName id; Privilege id;
   fmt_bool (WithGrantOption id); Join (Roles id) (str ",")].
Proof.
  intros Hv; apply valid_fields in Hv as (H1 & H2 & H3 & H4 & H5 & _).
  rewrite String_as_Join; apply Split_Join_snowflake.
  repeat (constructor; [assumption || apply fmt_bool_free|]).
  constructor; [|constructor].
  apply (@Join_free_of snowflake x2c); [discriminate | apply comma_not_in_snowflake | assumption].
Qed.

Lemma Contains_String (id : StreamGrantID) :
  valid id = true -> Contains (StreamGrantID_String id) snowflake = true.
Proof.
  intros Hv; apply valid_fields in Hv as (H1 & _).
  rewrite String_as_Join.
  now apply (Contains_Join (sep := snowflake) eq_refl snowflake_fresh).
Qed.

(** C1, as amended.  For every valid identifier whose role list is not the
    single empty role name, the encoded string splits into the six fields
    and decoding it gives the identifier back, equal in all six fields.  An
    empty role list is encoded as an empty last segment and decodes to the
    empty list. *)
Theorem parse_String_roundtrip (id : StreamGrantID) :
  valid id = true -> Roles id <> [[]] ->
  Split (StreamGrantID_String id) snowflake =
    [DatabaseName id; SchemaName id; ObjectName id; Privilege id;
     fmt_bool (WithGrantOption id); Join (Roles id) (str ",")] /\
  (Roles id = [] -> Join (Roles id) (str ",") = []) /\
  parseStreamGrantID (StreamGrantID_String id) = Returns (Ok id).
Proof.
  intros Hv Hr; split; [now apply Split_String|].
  split; [now intros ->|].
  unfold parseStreamGrantID.
  rewrite (Contains_String _ Hv), (Split_String _ Hv); cbn.
  apply valid_fields in Hv as (_ & _ & _ & _ & _ & Hc).
  rewrite streq_fmt_bool, (@SplitStringToSlice_Join x2c _ Hc Hr).
  now destruct id.
Qed.

Lemma parse_String_roundtrip_witness :
  (valid id_two_roles = true /\ Roles id_two_roles <> [[]] /\
   parseStreamGrantID (StreamGrantID_String id_two_roles) = Returns (Ok id_two_roles)) /\
  (valid id_no_role = true /\ Roles id_no_role = [] /\
   parseStreamGrantID (StreamGrantID_String id_no_role) = Returns (Ok id_no_role)).
Proof.
  split; (split; [reflexivity|]).
  - split; [discriminate|].
    apply (@parse_String_roundtrip id_two_roles); [reflexivity | discriminate].
  - split; [reflexivity|].
    apply (@parse_String_roundtrip id_no_role); [reflexivity | discriminate].
Defined.

(** C1, as stated, fails on the valid identifier whose role list is the
    single empty role name: it is encoded like the identifier without roles
    and decodes to that one. *)
Lemma roundtrip_fails_on_single_empty_role :
  valid id_empty_role = true /\
  StreamGrantID_String id_empty_role = StreamGrantID_String id_no_role /\
  parseStreamGrantID (StreamGrantID_String id_empty_role) = Returns (Ok id_no_role) /\
  parseStreamGrantID (StreamGrantID_String id_empty_role) <> Returns (Ok id_empty_role).
Proof.
  split; [reflexivity|]. split; [reflexivity|].
  split; [vm_compute; reflexivity | vm_compute; discriminate].
Qed.

(** C10.  The encoding is not injective on role lists.  A role list with
    the single name [r1 ++ "," ++ r2] and the role list [[r1; r2]] are
    encoded alike; for ["a,b"] and ["a"; "b"] the two identifiers differ,
    share their encoding, and decoding it gives the second one, so the
    round trip changes the roles of the first. *)
Theorem String_not_injective_on_roles :
  (forall db sc ob pr wg r1 r2,
     StreamGrantID_String (NewStreamGrantID db sc ob pr [r1 ++ str "," ++ r2] wg) =
     StreamGrantID_String (NewStreamGrantID db sc ob pr [r1; r2] wg)) /\
  id_comma_role <> id_split_roles /\
  StreamGrantID_String id_comma_role = StreamGrantID_String id_split_roles /\
  parseStreamGrantID (StreamGrantID_String id_comma_role) = Returns (Ok id_split_roles) /\
  parseStreamGrantID (StreamGrantID_String id_comma_role) <> Returns (Ok id_comma_role).
Proof.
  split; [reflexivity|].
  split; [discriminate|].
  split; [reflexivity|].
  split; [vm_compute; reflexivity | vm_compute; discriminate].
Qed.

Lemma index_nth (a : list gostring) (i : nat) (x : gostring) :
  nth_error a i = Some x -> index a i = Returns x.
Proof. unfold index; now intros ->. Qed.

Lemma fmt_int_inj (n m : nat) : fmt_int n = fmt_int m -> n = m.
Proof.
  unfold fmt_int, str; intros H.
  apply (f_equal String.string_of_list_byte) in H.
  rewrite !String.string_of_list_byte_of_string in H.
  apply (f_equal NilEmpty.uint_of_string) in H.
  rewrite !NilEmpty.usu in H; injection H as H.
  apply (f_equal Nat.of_uint) in H.
  now rewrite !DecimalNat.Unsigned.of_to in H.
Qed.

(** The segment-count error names its count: different counts give
    different errors. *)
Lemma unexpected_parts_inj (n m : nat) :
  unexpected_parts n = unexpected_parts m -> n = m.
Proof.
  unfold unexpected_parts; intros [= H].
  apply app_inv_tail in H; now apply fmt_int_inj.
Qed.

(** C3.  An input that holds the delimiter and whose split does not have
    6 segments is answered with the segment-count error, which carries the
    actual count; with exactly 6 segments decoding succeeds.  Neither case
    panics. *)
Theorem parse_segment_count (s : gostring) :
  Contains s snowflake = true ->
  (length (Split s snowflake) <> 6 ->
   parseStreamGrantID s =
     Returns (Err (unexpected_parts (length (Split s snowflake)))) /\
   forall n, unexpected_parts n = unexpected_parts (length (Split s snowflake)) ->
             n = length (Split s snowflake)) /\
  (length (Split s snowflake) = 6 ->
   exists id, parseStreamGrantID s = Returns (Ok id)).
Proof.
  intros Hc; unfold parseStreamGrantID; rewrite Hc; cbn [negb].
  split.
  - intros Hn; apply Nat.eqb_neq in Hn; rewrite Hn; cbn [negb].
    split; [reflexivity | intros n H; now apply unexpected_parts_inj].
  - intros Hn; rewrite Hn; cbn [Nat.eqb negb].
    destruct (Split s snowflake) as [|a [|b [|c [|d [|e [|f [|]]]]]]];
      try discriminate.
    cbn; eexists; reflexivity.
Qed.

Lemma parse_segment_count_witness :
  Contains (snowflake ++ str "a|b") snowflake = true /\
  length (Split (snowflake ++ str "a|b") snowflake) = 2 /\
  parseStreamGrantID (snowflake ++ str "a|b") = Returns (Err (unexpected_parts 2)) /\
  exists id, parseStreamGrantID (StreamGrantID_String id_two_roles) = Returns (Ok id).
Proof.
  split; [reflexivity|]. split; [reflexivity|]. split.
  - apply (proj1 (@parse_segment_count (snowflake ++ str "a|b") eq_refl)).
    vm_compute; lia.
  - apply (proj2 (@parse_segment_count (StreamGrantID_String id_two_roles) eq_refl)).
    reflexivity.
Defined.

(** C4.  A string without the delimiter that splits on the pipe into
    exactly five segments decodes successfully: the first four segments are
    the database, schema, object and privilege, the role list is empty, and
    the grant option is whether the fifth segment is "true". *)
Theorem parse_legacy (s db sc ob pr wg : gostring) :
  Contains s snowflake = false ->
  Split s (str "|") = [db; sc; ob; pr; wg] ->
  parseStreamGrantID s =
  Returns (Ok {| DatabaseName := db; SchemaName := sc; ObjectName := ob;
                 Privilege := pr; Roles := [];
                 WithGrantOption := streq wg (str "true") |}).
Proof.
  intros Hc Hs; unfold parseStreamGrantID; rewrite Hc, Hs; reflexivity.
Qed.

Lemma parse_legacy_witness :
  parseStreamGrantID (str "db|sch|stream|SELECT|true") =
  Returns (Ok {| DatabaseName := str "db"; SchemaName := str "sch";
                 ObjectName := str "stream"; Privilege := str "SELECT";
                 Roles := []; WithGrantOption := true |}).
Proof.
  apply (@parse_legacy (str "db|sch|stream|SELECT|true")
           (str "db") (str "sch") (str "stream") (str "SELECT") (str "true"));
    reflexivity.
Defined.

(** Every string built from five pipe-free, delimiter-free fields is such a
    legacy string. *)
Lemma legacy_well_formed (db sc ob pr wg : gostring) :
  Forall (free (str "|")) [db; sc; ob; pr; wg] ->
  Forall (free snowflake) [db; sc; ob; pr; wg] ->
  Contains (Join [db; sc; ob; pr; wg] (str "|")) snowflake = false /\
  Split (Join [db; sc; ob; pr; wg] (str "|")) (str "|") = [db; sc; ob; pr; wg].
Proof.
  intros Hp Hs; split.
  - apply (@Join_free_of snowflake x7c); [discriminate | apply pipe_not_in_snowflake | exact Hs].
  - now apply (@Split_Join_byte x7c).
Qed.

(** C2: the code panics.  On an input without the delimiter and with fewer
    than five pipe-delimited segments the legacy path indexes past the end
    of the split: no error is returned, the call panics at the first
    missing segment. *)
Theorem parse_legacy_short_panics (s : gostring) :
  Contains s snowflake = false ->
  length (Split s (str "|")) < 5 ->
  parseStreamGrantID s =
  Panics (IndexOutOfRange (length (Split s (str "|"))) (length (Split s (str "|")))).
Proof.
  intros Hc Hn; unfold parseStreamGrantID; rewrite Hc; cbn [negb].
  destruct (Split s (str "|")) as [|a [|b [|c [|d [|e l]]]]];
    try reflexivity.
  simpl in Hn; lia.
Qed.

Lemma parse_legacy_short_panics_witness :
  parseStreamGrantID (str "a|b") = Panics (IndexOutOfRange 2 2).
Proof.
  apply (@parse_legacy_short_panics (str "a|b")); [reflexivity | vm_compute; lia].
Defined.

(** C8, as amended.  The grant-option segment never makes decoding fail:
    in both formats it is compared with "true", so the decoded flag is true
    exactly when the segment is the string "true" and false for every other
    segment, boolean or not. *)
Theorem parse_grant_option_segment (s db sc ob pr wg : gostring) (rest : list gostring) :
  (Contains s snowflake = true /\ (exists r, Split s snowflake = [db; sc; ob; pr; wg; r])) \/
  (Contains s snowflake = false /\ Split s (str "|") = db :: sc :: ob :: pr :: wg :: rest) ->
  exists id, parseStreamGrantID s = Returns (Ok id) /\
             WithGrantOption id = streq wg (str "true") /\
             (WithGrantOption id = true <-> wg = str "true").
Proof.
  intros [[Hc [r Hs]] | [Hc Hs]]; unfold parseStreamGrantID; rewrite Hc, Hs; cbn;
    eexists; (split; [reflexivity|]); cbn; (split; [reflexivity | apply streq_true]).
Qed.

Lemma parse_grant_option_segment_witness :
  exists id, parseStreamGrantID id_string_maybe = Returns (Ok id) /\
             WithGrantOption id = streq (str "maybe") (str "true") /\
             (WithGrantOption id = true <-> str "maybe" = str "true").
Proof.
  apply (@parse_grant_option_segment id_string_maybe
           (str "D") (str "S") (str "T") (str "SELECT") (str "maybe") []).
  left; split; [reflexivity | exists (str "R1"); reflexivity].
Defined.

(** C8, as stated, fails: the segment "maybe" is no boolean, and the
    string decodes without an error, to a grant option of false. *)
Lemma unparseable_grant_option_decodes :
  nth_error (Split id_string_maybe snowflake) 4 = Some (str "maybe") /\
  ParseBool (str "maybe") = None /\
  parseStreamGrantID id_string_maybe =
    Returns (Ok (NewStreamGrantID (str "D") (str "S") (str "T") (str "SELECT")
                                  [str "R1"] false)) /\
  (forall e, parseStreamGrantID id_string_maybe <> Returns (Err e)).
Proof.
  split; [reflexivity|]. split; [reflexivity|].
  split; [reflexivity|]. intros e; vm_compute; discriminate.
Qed.

(** ** The life cycle *)

Lemma DB_eta (db : DB) : mkDB (driver db) (issued db) = db.
Proof. now destruct db. Qed.

Lemma prefix_of_nil (plan : list statement) : prefix_of [] plan.
Proof. now exists plan. Qed.

Lemma prefix_of_cons (q : statement) (done plan : list statement) :
  prefix_of done plan -> prefix_of (q :: done) (q :: plan).
Proof. intros [rest ->]; now exists rest. Qed.

Lemma prefix_of_app (l done plan : list statement) :
  prefix_of done plan -> prefix_of (l ++ done) (l ++ plan).
Proof. intros [rest ->]; exists rest; now rewrite app_assoc. Qed.

Lemma prefix_of_weaken (done plan more : list statement) :
  prefix_of done plan -> prefix_of done (plan ++ more).
Proof. intros [rest ->]; exists (rest ++ more); now rewrite app_assoc. Qed.

Lemma Exec_run (q : statement) (d : ResourceData) (db : DB) :
  Exec q (d, db) =
  Returns (match driver db (issued db) q with
           | Done _ => None
           | Failed e => Some (DriverError q e)
           end, (d, mkDB (driver db) (issued db ++ [q]))).
Proof. reflexivity. Qed.

(** A loop of statements: it returns, leaves the resource data alone, and
    what it has sent is an initial part of its statements, all of them when
    it returns [nil].  Its errors are the driver's. *)
Definition runs_statements (m : M (option error)) (stmts : list statement) : Prop :=
  forall d db, exists r done,
    m (d, db) = Returns (r, (d, mkDB (driver db) (issued db ++ done))) /\
    prefix_of done stmts /\
    (r = None -> done = stmts) /\
    (forall e, r = Some e -> exists q se, e = DriverError q se).

Lemma runs_nil : runs_statements (ret None) [].
Proof.
  intros d db; exists None, []; rewrite app_nil_r, DB_eta.
  repeat split; [apply prefix_of_nil | discriminate].
Qed.

Lemma runs_cons (q : statement) (m : M (option error)) (stmts : list statement) :
  runs_statements m stmts ->
  runs_statements (check Exec q ;; m) (q :: stmts).
Proof.
  intros Hm d db; unfold bind; rewrite Exec_run.
  destruct (driver db (issued db) q) as [rows|e].
  - destruct (Hm d (mkDB (driver db) (issued db ++ [q]))) as (r & done & Hr & Hp & Hn & He).
    exists r, (q :: done); rewrite Hr; cbn [driver issued].
    rewrite <- app_assoc; repeat split; try assumption.
    + now apply prefix_of_cons.
    + intros E; now rewrite (Hn E).
  - exists (Some (DriverError q e)), [q]; repeat split.
    + apply prefix_of_cons, prefix_of_nil.
    + discriminate.
    + intros e' [= <-]; now exists q, e.
Qed.

Lemma revoke_loop (b : GrantBuilder) (p : gostring) (roles : list gostring) :
  runs_statements (deleteGenericGrantRolesAndShares b p roles [])
                  (map (fun role => Revoke b role p) roles).
Proof.
  induction roles as [|role roles IH]; [apply runs_nil | now apply runs_cons].
Qed.

Lemma grant_loop (b : GrantBuilder) (p : gostring) (g : bool) (roles : list gostring) :
  runs_statements (createGenericGrantRolesAndShares b p g roles [])
                  (map (fun role => Grant b role p g) roles).
Proof.
  induction roles as [|role roles IH]; [apply runs_nil | now apply runs_cons].
Qed.

(** What [ReadStreamGrant] does once the identifier is decoded: it sends
    the [Show] of the selected builder and returns; a driver answer of no
    rows clears the identifier and is not an error. *)
Lemma Read_run (d : ResourceData) (db : DB) (grantID : StreamGrantID) :
  parseStreamGrantID (Id d) = Returns (Ok grantID) ->
  exists r d',
    ReadStreamGrant (d, db) =
      Returns (r, (d', mkDB (driver db) (issued db ++ [Show (builder_for grantID)]))) /\
    (forall e, r = Some e -> exists q se, e = DriverError q se) /\
    (Id d' = Id d \/ Id d' = []) /\
    (driver db (issued db) (Show (builder_for grantID)) = Failed ErrNoRows ->
     r = None /\ State d' = None).
Proof.
  intros Hp; unfold ReadStreamGrant, bind, get_d, lift; cbn [fst].
  rewrite Hp; cbn -[streq].
  unfold builder_for.
  destruct (streq (ObjectName grantID) []); cbn -[streq];
    match goal with
    | |- context [driver db (issued db) ?q] =>
        destruct (driver db (issued db) q) as [rows|[|msg]]
    end; cbn -[streq]; eexists; eexists;
    (split; [reflexivity|]); cbn;
    (split; [intros e [= <-] || discriminate|]); try (do 2 eexists; reflexivity);
    (split; [auto|]); try discriminate; auto.
Qed.

Lemma parse_Err (s : gostring) (e : error) :
  parseStreamGrantID s = Returns (Err e) -> exists n, e = unexpected_parts n.
Proof.
  unfold parseStreamGrantID; destruct (Contains s snowflake); cbn [negb].
  - destruct (length (Split s snowflake) =? 6) eqn:E; cbn [negb].
    + destruct (Split s snowflake) as [|a [|b [|c [|d [|e' [|f [|]]]]]]];
        discriminate.
    + intros [= <-]; now eexists.
  - destruct (Split s (str "|")) as [|a [|b [|c [|d [|e' l]]]]]; discriminate.
Qed.

Lemma not_validation_driver (q : statement) (se : sql_error) :
  ~ In (DriverError q se) validation_errors.
Proof. simpl; intuition discriminate. Qed.

Lemma not_validation_parts (n : nat) : ~ In (unexpected_parts n) validation_errors.
Proof. unfold unexpected_parts; simpl; intuition discriminate. Qed.

Lemma streamName_GetOk (d : ResourceData) :
  (let (name, ok) := GetOk_stream_name d in if ok then name else []) = stream_name d.
Proof. unfold GetOk_stream_name; now destruct (stream_name d). Qed.

(** The part of [CreateStreamGrant] after the validation block. *)
Lemma Create_eq (d : ResourceData) (db : DB) :
  CreateStreamGrant (d, db) =
  if streq (stream_name d) [] && negb (on_future d) then
    Returns (Some (errors_New (str "stream_name must be set unless on_future is true")), (d, db))
  else if negb (streq (stream_name d) []) && on_future d then
    Returns (Some (errors_New (str "stream_name must be empty if on_future is true")), (d, db))
  else if streq (schema_name d) [] && negb (on_future d) then
    Returns (Some (errors_New (str "schema_name must be set unless on_future is true")), (d, db))
  else
    (check createGenericGrant
             (if on_future d
              then FutureStreamGrant (database_name d) (schema_name d)
              else StreamGrant (database_name d) (schema_name d) (stream_name d)) ;;
     SetId (StreamGrantID_String (declared_id d)) ;;;
     ReadStreamGrant) (d, db).
Proof.
  unfold CreateStreamGrant; unfold bind at 1; unfold get_d; cbn [fst].
  rewrite streamName_GetOk.
  destruct (streq (stream_name d) [] && negb (on_future d)); [reflexivity|].
  destruct (negb (streq (stream_name d) []) && on_future d); [reflexivity|].
  destruct (streq (schema_name d) [] && negb (on_future d)); reflexivity.
Qed.

Lemma bind_eq (A B : Type) (m : M A) (k : A -> M B) (w : world) :
  bind m k w =
  match m w with
  | Returns (a, w') => k a w'
  | Panics p => Panics p
  end.
Proof. reflexivity. Qed.

Lemma createGenericGrant_eq (b : GrantBuilder) (d : ResourceData) (db : DB) :
  createGenericGrant b (d, db) =
  createGenericGrantRolesAndShares b (privilege d) (with_grant_option d)
    (roles d) [] (d, db).
Proof. reflexivity. Qed.

Lemma SetId_run (v : gostring) (d : ResourceData) (db : DB) :
  SetId v (d, db) =
  Returns (tt, (mkResourceData v (database_name d) (enable_multiple_grants d)
                  (on_future d) (privilege d) (roles d) (schema_name d)
                  (stream_name d) (with_grant_option d) (prior_roles d), db)).
Proof. reflexivity. Qed.

Lemma Read_no_id (d : ResourceData) (db : DB) :
  (forall e, parseStreamGrantID (Id d) = Returns (Err e) ->
             ReadStreamGrant (d, db) = Returns (Some e, (d, db))) /\
  (forall p, parseStreamGrantID (Id d) = Panics p ->
             ReadStreamGrant (d, db) = Panics p).
Proof.
  split; intros x Hp; unfold ReadStreamGrant, bind, get_d, lift; cbn [fst];
    now rewrite Hp.
Qed.

Lemma Create_tail (b : GrantBuilder) (d : ResourceData) (db : DB) :
  forall r d' db',
    (check createGenericGrant b ;;
     SetId (StreamGrantID_String (declared_id d)) ;;;
     ReadStreamGrant) (d, db) = Returns (r, (d', db')) ->
    (forall e, r = Some e -> ~ In e validation_errors) /\
    (r = None ->
     Id d' = StreamGrantID_String (declared_id d) \/ Id d' = []).
Proof.
  rewrite bind_eq, createGenericGrant_eq.
  destruct (grant_loop b (privilege d) (with_grant_option d) (roles d) d db)
    as (r1 & done & Hr1 & _ & _ & He1).
  rewrite Hr1; destruct r1 as [e1|].
  - intros r d' db' [= <- <- <-]; split; [|discriminate].
    intros e [= <-]; destruct (He1 e1 eq_refl) as (q & se & ->).
    apply not_validation_driver.
  - rewrite bind_eq, SetId_run.
    match goal with
    | |- context [ReadStreamGrant (?d1, ?db1)] => set (ds := d1); set (dbs := db1)
    end.
    destruct (parseStreamGrantID (Id ds)) as [[grantID|err]|p] eqn:Hp.
    + destruct (Read_run ds dbs Hp) as (r2 & d2 & Hr2 & He2 & Hid & _).
      rewrite Hr2; intros r d' db' [= <- <- <-]; split.
      * intros e ->; destruct (He2 e eq_refl) as (q & se & ->).
        apply not_validation_driver.
      * intros _; exact Hid.
    + rewrite (proj1 (Read_no_id ds dbs) _ Hp).
      intros r d' db' [= <- <- <-]; split; [|discriminate].
      intros e [= <-]; apply parse_Err in Hp as [n ->].
      apply not_validation_parts.
    + rewrite (proj2 (Read_no_id ds dbs) _ Hp); discriminate.
Qed.

Lemma rejected_dec (d : ResourceData) :
  rejected d <->
  streq (stream_name d) [] && negb (on_future d) = true \/
  negb (streq (stream_name d) []) && on_future d = true \/
  streq (schema_name d) [] && negb (on_future d) = true.
Proof.
  unfold rejected.
  rewrite !andb_true_iff, !negb_true_iff, !streq_true, streq_false.
  tauto.
Qed.

(** C5.  In each of the three refused field combinations
    [CreateStreamGrant] returns one of its three validation errors at once:
    the resource data and the client are as before, so no statement was
    sent.  In every other case no error it returns is one of the three. *)
Theorem CreateStreamGrant_validation (d : ResourceData) (db : DB) :
  (rejected d ->
   exists e, In e validation_errors /\
             CreateStreamGrant (d, db) = Returns (Some e, (d, db))) /\
  (~ rejected d ->
   forall e w, CreateStreamGrant (d, db) = Returns (Some e, w) ->
               ~ In e validation_errors).
Proof.
  rewrite rejected_dec, Create_eq.
  destruct (streq (stream_name d) [] && negb (on_future d)) eqn:E1;
    [split; [intros _; eexists; split; [|reflexivity]; simpl; tauto | intros H; exfalso; tauto]|].
  destruct (negb (streq (stream_name d) []) && on_future d) eqn:E2;
    [split; [intros _; eexists; split; [|reflexivity]; simpl; tauto | intros H; exfalso; tauto]|].
  destruct (streq (schema_name d) [] && negb (on_future d)) eqn:E3;
    [split; [intros _; eexists; split; [|reflexivity]; simpl; tauto | intros H; exfalso; tauto]|].
  split; [intros [H | [H | H]]; discriminate|].
  intros _ e [d' db'] Hrun.
  exact (proj1 (@Create_tail _ d db _ _ _ Hrun) e eq_refl).
Qed.

(** C7.  When the identifier decodes and the driver answers the [Show] of
    the selected builder with no rows, [ReadStreamGrant] sends that one
    query, returns [nil], and the resource is left without state. *)
Theorem Read_absorbs_not_found (d : ResourceData) (db : DB) (grantID : StreamGrantID) :
  parseStreamGrantID (Id d) = Returns (Ok grantID) ->
  driver db (issued db) (Show (builder_for grantID)) = Failed ErrNoRows ->
  exists d',
    ReadStreamGrant (d, db) =
      Returns (None, (d', mkDB (driver db) (issued db ++ [Show (builder_for grantID)]))) /\
    State d' = None.
Proof.
  intros Hp Hgone.
  destruct (Read_run d db Hp) as (r & d' & Hr & _ & _ & Hnf).
  destruct (Hnf Hgone) as [-> Hs]; now exists d'.
Qed.

Lemma Read_absorbs_not_found_witness :
  State d_update <> None /\
  exists d',
    ReadStreamGrant (d_update, db_gone) =
      Returns (None, (d', mkDB (driver db_gone)
                           [Show (StreamGrant (str "D") (str "S") (str "T"))])) /\
    State d' = None.
Proof.
  split; [discriminate|].
  apply (@Read_absorbs_not_found d_update db_gone id_two_roles); reflexivity.
Defined.

Lemma Contains_elem_In (x : gostring) (l : list gostring) :
  In x l -> Contains_elem x l = true.
Proof.
  intros H; apply existsb_exists; exists x; split; [assumption | apply streq_refl].
Qed.

Lemma HasChanges_roles (d : ResourceData) :
  HasChanges d [str "roles"] = negb (Equal (prior_roles d) (roles d)).
Proof.
  unfold HasChanges, HasChange, GetChange_roles; cbn [existsb].
  rewrite streq_refl; apply orb_false_r.
Qed.

(** [UpdateStreamGrant] once the roles have changed and the identifier is
    decoded: the revoke loop, the grant loop, the read. *)
Lemma Update_eq (d : ResourceData) (db : DB) (grantID : StreamGrantID) :
  HasChanges d [str "roles"] = true ->
  parseStreamGrantID (Id d) = Returns (Ok grantID) ->
  UpdateStreamGrant (d, db) =
  (check deleteGenericGrantRolesAndShares (builder_for grantID) (Privilege grantID)
           (Difference (prior_roles d) (roles d)) [] ;;
   check createGenericGrantRolesAndShares (builder_for grantID) (Privilege grantID)
           (WithGrantOption grantID) (Difference (roles d) (prior_roles d)) [] ;;
   ReadStreamGrant) (d, db).
Proof.
  intros Hch Hp; unfold UpdateStreamGrant.
  rewrite bind_eq; unfold get_d; cbn [fst].
  rewrite Hch; cbn [negb].
  rewrite HasChanges_roles in Hch.
  unfold HasChange, GetChange_roles; rewrite streq_refl, Hch.
  unfold changeDiff_roles, GetChange_roles.
  rewrite bind_eq; unfold lift; rewrite Hp.
  reflexivity.
Qed.

(** The spec's example: previous roles A and B, desired roles B and C. *)
Lemma Update_roles_example :
  changeDiff_roles d_update = ([str "C"], [str "A"]) /\
  match UpdateStreamGrant (d_update, db_ok) with
  | Returns (None, (_, db')) =>
      issued db' =
      [Revoke (StreamGrant (str "D") (str "S") (str "T")) (str "A") (str "SELECT");
       Grant (StreamGrant (str "D") (str "S") (str "T")) (str "C") (str "SELECT") false;
       Show (StreamGrant (str "D") (str "S") (str "T"))]
  | _ => False
  end.
Proof. split; vm_compute; reflexivity. Qed.

(** The spec's end-to-end example: two grants, then the read. *)
Lemma Create_example :
  match CreateStreamGrant (d_create, db_ok) with
  | Returns (None, (d', db')) =>
      issued db' =
      [Grant (StreamGrant (str "D") (str "S") (str "T")) (str "R1") (str "SELECT") false;
       Grant (StreamGrant (str "D") (str "S") (str "T")) (str "R2") (str "SELECT") false;
       Show (StreamGrant (str "D") (str "S") (str "T"))] /\
      parseStreamGrantID (Id d') = Returns (Ok id_two_roles)
  | _ => False
  end.
Proof. vm_compute; split; reflexivity. Qed.

(** * Further properties *)

(** ** Splitting in general *)

Lemma HasPrefix_app_long (x r p : gostring) :
  length p <= length x -> HasPrefix (x ++ r) p = HasPrefix x p.
Proof.
  revert x; induction p as [|b p IH]; intros x Hl; [reflexivity|].
  destruct x as [|a x]; [simpl in Hl; lia|].
  simpl; rewrite IH; [reflexivity | simpl in Hl; lia].
Qed.

Lemma Index_app_Some (x r sub : gostring) (i : nat) :
  Index x sub = Some i -> Index (x ++ r) sub = Some i.
Proof.
  revert i; induction x as [|a x IH]; intros i; rewrite Index_eq.
  - destruct (HasPrefix [] sub) eqn:E; [|discriminate].
    intros [= <-]; destruct sub; [|discriminate].
    now rewrite Index_eq.
  - destruct (HasPrefix (a :: x) sub) eqn:E.
    + intros [= <-]; apply HasPrefix_true in E as [q E].
      rewrite Index_eq, E, <- app_assoc, HasPrefix_app; reflexivity.
    + destruct (Index x sub) as [j|] eqn:Hj; cbn [option_map]; [|discriminate].
      intros [= <-]; rewrite Index_eq.
      rewrite HasPrefix_app_long, E by (apply Index_bound in Hj; simpl; lia).
      rewrite <- app_comm_cons, (IH j eq_refl); reflexivity.
Qed.

Lemma Index_Some_cut (s sub : gostring) (i : nat) :
  Index s sub = Some i ->
  s = firstn i s ++ sub ++ skipn (i + length sub) s.
Proof.
  revert i; induction s as [|a s IH]; intros i; rewrite Index_eq.
  - destruct (HasPrefix [] sub) eqn:E; [|discriminate].
    intros [= <-]; now destruct sub.
  - destruct (HasPrefix (a :: s) sub) eqn:E.
    + intros [= <-]; apply HasPrefix_true in E as [q E].
      rewrite E; cbn [Nat.add firstn app].
      rewrite skipn_app, skipn_all, Nat.sub_diag; reflexivity.
    + destruct (Index s sub) as [j|] eqn:Hj; simpl; [|discriminate].
      intros [= <-]; simpl; f_equal; now apply IH.
Qed.

Lemma genSplit_loop_None (n : nat) (s sep : gostring) :
  Index s sep = None -> genSplit_loop n s sep = [s].
Proof. intros H; destruct n; simpl; [reflexivity | now rewrite H]. Qed.

(** Cuts beyond the number of separators change nothing. *)
Lemma genSplit_loop_fuel (sep : gostring) :
  sep <> [] ->
  forall g s f, length s <= g -> Count_loop g s sep <= f ->
  genSplit_loop f s sep = genSplit_loop g s sep.
Proof.
  intros Hsep; induction g as [|g IH]; intros s f Hg Hf.
  - destruct s; [|simpl in Hg; lia].
    rewrite genSplit_loop_None; [reflexivity|].
    destruct sep; [congruence | reflexivity].
  - cbn [Count_loop genSplit_loop] in *.
    destruct (Index s sep) as [i|] eqn:E; [|now apply genSplit_loop_None].
    destruct f as [|f]; [lia|].
    cbn [genSplit_loop]; rewrite E; f_equal.
    apply Index_bound in E.
    assert (0 < length sep) by (destruct sep; [congruence | simpl; lia]).
    apply IH; [rewrite length_skipn; lia | lia].
Qed.

Lemma Count_loop_le (sep : gostring) :
  sep <> [] -> forall g s, length s <= g -> Count_loop g s sep <= length s.
Proof.
  intros Hsep; induction g as [|g IH]; intros s Hg; [simpl; lia|].
  cbn [Count_loop]; destruct (Index s sep) as [i|] eqn:E; [|lia].
  apply Index_bound in E.
  assert (0 < length sep) by (destruct sep; [congruence | simpl; lia]).
  specialize (IH (skipn (i + length sep) s)).
  rewrite length_skipn in IH; lia.
Qed.

Lemma Split_by_length (sep s : gostring) :
  sep <> [] -> Split s sep = genSplit_loop (length s) s sep.
Proof.
  intros Hsep; unfold Split, Count; destruct sep as [|c t]; [congruence|].
  now apply genSplit_loop_fuel.
Qed.

Lemma Split_long_fuel (sep s : gostring) (f : nat) :
  sep <> [] -> length s <= f -> genSplit_loop f s sep = Split s sep.
Proof.
  intros Hsep Hf; rewrite Split_by_length by assumption.
  apply genSplit_loop_fuel; [assumption | lia|].
  pose proof (@Count_loop_le sep Hsep (length s) s (le_n _)); lia.
Qed.

(** Splitting and joining again gives the string back. *)
Lemma Join_genSplit_loop (sep : gostring) (n : nat) :
  forall s, Join (genSplit_loop n s sep) sep = s.
Proof.
  induction n as [|n IH]; intros s; [reflexivity|].
  cbn [genSplit_loop]; destruct (Index s sep) as [m|] eqn:E; [|reflexivity].
  specialize (IH (skipn (m + length sep) s)).
  destruct (genSplit_loop n (skipn (m + length sep) s) sep) as [|y ys] eqn:G.
  - destruct n; simpl in G; [discriminate|].
    destruct (Index (skipn (m + length sep) s) sep); discriminate.
  - change (firstn m s ++ sep ++ Join (y :: ys) sep = s).
    rewrite IH; symmetry; now apply Index_Some_cut.
Qed.

Lemma Join_Split (s sep : gostring) : Join (Split s sep) sep = s.
Proof.
  unfold Split; destruct sep; [reflexivity | apply Join_genSplit_loop].
Qed.

Lemma genSplit_loop_length (n : nat) (s sep : gostring) :
  1 <= length (genSplit_loop n s sep).
Proof.
  destruct n; simpl; [lia|]; destruct (Index s sep); simpl; lia.
Qed.

Lemma Split_length (s sep : gostring) : 1 <= length (Split s sep).
Proof. unfold Split; destruct sep; [simpl; lia | apply genSplit_loop_length]. Qed.

Lemma Split_free (s sep : gostring) :
  Contains s sep = false -> Split s sep = [s].
Proof.
  intros H; apply Contains_false in H; unfold Split.
  destruct sep; [reflexivity | now apply genSplit_loop_None].
Qed.

Lemma Split_not_free (s sep : gostring) :
  sep <> [] -> Contains s sep = true -> 2 <= length (Split s sep).
Proof.
  intros Hsep H; rewrite Split_by_length by assumption.
  unfold Contains in H; destruct (Index s sep) as [i|] eqn:E; [|discriminate].
  pose proof (Index_bound _ _ E) as Hb.
  assert (0 < length sep) by (destruct sep; [congruence | simpl; lia]).
  destruct (length s) as [|n] eqn:L; [lia|].
  cbn [genSplit_loop]; rewrite E; cbn [length].
  pose proof (genSplit_loop_length n (skipn (i + length sep) s) sep); lia.
Qed.

(** *** Splitting around a separator

    For a separator whose first byte does not occur in it again, the
    instances of the separator in [x ++ sep ++ y] are those of [x], the
    one in the middle and those of [y]. *)
Section SplitApp.
Variables (sep : gostring) (c : byte) (t : gostring).
Hypothesis sep_eq : sep = c :: t.
Hypothesis c_fresh : ~ In c t.

Lemma sep_not_nil : sep <> [].
Proof. rewrite sep_eq; discriminate. Qed.

Lemma genSplit_loop_app_sep (g : nat) :
  forall x y, length x <= g ->
  Split (x ++ sep ++ y) sep = genSplit_loop g x sep ++ Split y sep.
Proof.
  pose proof sep_not_nil as Hsep.
  assert (Hs : 0 < length sep) by (rewrite sep_eq; simpl; lia).
  induction g as [|g IH]; intros x y Hg;
    rewrite (@Split_by_length sep (x ++ sep ++ y) Hsep), !length_app;
    destruct (length x + (length sep + length y)) as [|f] eqn:L; try lia;
    cbn [genSplit_loop];
    destruct (Index x sep) as [i|] eqn:E.
  - apply Index_bound in E; lia.
  - rewrite (@Index_before_sep sep c t sep_eq c_fresh x y E).
    rewrite firstn_before_sep, skipn_past_sep.
    rewrite Split_long_fuel by (assumption || lia); reflexivity.
  - pose proof (Index_bound _ _ E) as Hb.
    rewrite (@Index_app_Some x (sep ++ y) sep i E).
    rewrite firstn_app, skipn_app.
    replace (i - length x) with 0 by lia.
    replace (i + length sep - length x) with 0 by lia.
    cbn [firstn skipn]; rewrite app_nil_r.
    rewrite Split_long_fuel
      by (assumption || (rewrite !length_app, length_skipn; lia)).
    rewrite <- app_comm_cons; f_equal.
    apply IH; rewrite length_skipn; lia.
  - rewrite (@Index_before_sep sep c t sep_eq c_fresh x y E).
    rewrite firstn_before_sep, skipn_past_sep.
    rewrite Split_long_fuel by (assumption || lia); reflexivity.
Qed.

Lemma Split_app_sep (x y : gostring) :
  Split (x ++ sep ++ y) sep = Split x sep ++ Split y sep.
Proof.
  rewrite (@Split_by_length sep x sep_not_nil).
  now apply genSplit_loop_app_sep.
Qed.

Lemma Split_Join_concat (x : gostring) (xs : list gostring) :
  Split (Join (x :: xs) sep) sep =
  concat (map (fun f => Split f sep) (x :: xs)).
Proof.
  revert x; induction xs as [|y ys IH]; intros x.
  - simpl; now rewrite app_nil_r.
  - change (Join (x :: y :: ys) sep) with (x ++ sep ++ Join (y :: ys) sep).
    rewrite Split_app_sep, IH; reflexivity.
Qed.

Lemma Contains_app_sep (x y : gostring) : Contains (x ++ sep ++ y) sep = true.
Proof.
  unfold Contains; induction x as [|a x IH].
  - now rewrite app_nil_l, Index_eq, HasPrefix_app.
  - rewrite <- app_comm_cons, Index_eq.
    destruct (HasPrefix (a :: x ++ sep ++ y) sep); [reflexivity|].
    destruct (Index (x ++ sep ++ y) sep); [reflexivity | discriminate].
Qed.
End SplitApp.

(** ** More on the codec *)

Lemma Split_String_concat (id : StreamGrantID) :
  Split (StreamGrantID_String id) snowflake =
  concat (map (fun f => Split f snowflake)
              [DatabaseName id; SchemaName id; ObjectName id; Privilege id;
               fmt_bool (WithGrantOption id); Join (Roles id) (str ",")]).
Proof.
  rewrite String_as_Join.
  apply (@Split_Join_concat snowflake xe2 _ eq_refl snowflake_fresh).
Qed.

Lemma Contains_String_any (id : StreamGrantID) :
  Contains (StreamGrantID_String id) snowflake = true.
Proof.
  unfold StreamGrantID_String.
  apply (@Contains_app_sep snowflake (DatabaseName id)).
Qed.

Lemma delimiter_free_fields (id : StreamGrantID) :
  delimiter_free id = true ->
  Forall (free snowflake)
    [DatabaseName id; SchemaName id; ObjectName id; Privilege id;
     fmt_bool (WithGrantOption id); Join (Roles id) (str ",")].
Proof.
  unfold delimiter_free, encoded_fields, free; cbn [forallb].
  rewrite !andb_true_iff, !negb_true_iff.
  intros (H1 & H2 & H3 & H4 & H5 & _).
  repeat (constructor; [assumption || apply fmt_bool_free|]); constructor.
Qed.

(** Decoding an encoded identifier whose fields hold no delimiter. *)
Lemma parse_String_Ok (id : StreamGrantID) :
  delimiter_free id = true ->
  parseStreamGrantID (StreamGrantID_String id) =
  Returns (Ok {| DatabaseName := DatabaseName id;
                 SchemaName := SchemaName id;
                 ObjectName := ObjectName id;
                 Privilege := Privilege id;
                 Roles := SplitStringToSlice (Join (Roles id) (str ",")) (str ",");
                 WithGrantOption := WithGrantOption id |}).
Proof.
  intros Hf; apply delimiter_free_fields in Hf.
  unfold parseStreamGrantID; rewrite Contains_String_any; cbn [negb].
  rewrite String_as_Join, (Split_Join_snowflake Hf); cbn.
  now rewrite streq_fmt_bool.
Qed.

Lemma parse_count_error (s : gostring) :
  Contains s snowflake = true ->
  length (Split s snowflake) <> 6 ->
  parseStreamGrantID s =
  Returns (Err (unexpected_parts (length (Split s snowflake)))).
Proof.
  intros Hc Hn; unfold parseStreamGrantID; rewrite Hc; cbn [negb].
  apply Nat.eqb_neq in Hn; now rewrite Hn.
Qed.

Lemma length_Split_String (id : StreamGrantID) :
  delimiter_free id = false ->
  6 < length (Split (StreamGrantID_String id) snowflake).
Proof.
  intros Hf; rewrite Split_String_concat; cbn [map concat].
  rewrite !length_app; cbn [length].
  assert (Hs : snowflake <> []) by discriminate.
  pose proof (Split_length (DatabaseName id) snowflake).
  pose proof (Split_length (SchemaName id) snowflake).
  pose proof (Split_length (ObjectName id) snowflake).
  pose proof (Split_length (Privilege id) snowflake).
  pose proof (Split_length (fmt_bool (WithGrantOption id)) snowflake).
  pose proof (Split_length (Join (Roles id) (str ",")) snowflake).
  unfold delimiter_free, encoded_fields in Hf; cbn [forallb] in Hf.
  rewrite !andb_false_iff, !negb_false_iff in Hf.
  destruct Hf as [Hf | [Hf | [Hf | [Hf | [Hf | Hf]]]]];
    try discriminate; apply (@Split_not_free _ snowflake Hs) in Hf; lia.
Qed.

(** X1.  Decoding what [String] has encoded never panics, for any
    identifier.  When no encoded field holds the delimiter it returns an
    identifier with the same names, privilege and grant option, and the
    roles re-split from the joined role list; when some field holds the
    delimiter it returns the segment-count error with a count above 6, so a
    wrong identifier is never returned. *)
Theorem parse_String_total (id : StreamGrantID) :
  Contains (StreamGrantID_String id) snowflake = true /\
  (delimiter_free id = true ->
   parseStreamGrantID (StreamGrantID_String id) =
   Returns (Ok {| DatabaseName := DatabaseName id;
                  SchemaName := SchemaName id;
                  ObjectName := ObjectName id;
                  Privilege := Privilege id;
                  Roles := SplitStringToSlice (Join (Roles id) (str ",")) (str ",");
                  WithGrantOption := WithGrantOption id |})) /\
  (delimiter_free id = false ->
   6 < length (Split (StreamGrantID_String id) snowflake) /\
   parseStreamGrantID (StreamGrantID_String id) =
   Returns (Err (unexpected_parts
                   (length (Split (StreamGrantID_String id) snowflake))))).
Proof.
  split; [apply Contains_String_any|].
  split; [apply parse_String_Ok|].
  intros Hf; apply length_Split_String in Hf; split; [assumption|].
  apply parse_count_error; [apply Contains_String_any | lia].
Qed.

Lemma fmt_bool_inj (a b : bool) : fmt_bool a = fmt_bool b -> a = b.
Proof. now destruct a, b. Qed.

(** X2.  On valid identifiers whose role list is not the single empty
    name, [String] is injective: two different identifiers never share an
    encoding. *)
Theorem String_injective (id1 id2 : StreamGrantID) :
  valid id1 = true -> valid id2 = true ->
  Roles id1 <> [[]] -> Roles id2 <> [[]] ->
  id1 <> id2 ->
  StreamGrantID_String id1 <> StreamGrantID_String id2.
Proof.
  intros Hv1 Hv2 Hr1 Hr2 Hne Heq; apply Hne.
  pose proof (Split_String _ Hv1) as S1.
  pose proof (Split_String _ Hv2) as S2.
  rewrite Heq, S2 in S1; injection S1 as E1 E2 E3 E4 E5 E6.
  apply fmt_bool_inj in E5.
  apply valid_fields in Hv1 as (_ & _ & _ & _ & _ & Hc1).
  apply valid_fields in Hv2 as (_ & _ & _ & _ & _ & Hc2).
  assert (R1 : SplitStringToSlice (Join (Roles id1) (str ",")) (str ",") = Roles id1)
    by exact (@SplitStringToSlice_Join x2c _ Hc1 Hr1).
  assert (R2 : SplitStringToSlice (Join (Roles id2) (str ",")) (str ",") = Roles id2)
    by exact (@SplitStringToSlice_Join x2c _ Hc2 Hr2).
  rewrite <- E6, R2 in R1.
  destruct id1, id2; simpl in *; congruence.
Qed.

Lemma String_injective_witness :
  id_two_roles <> id_no_role /\
  StreamGrantID_String id_two_roles <> StreamGrantID_String id_no_role.
Proof.
  split; [discriminate|].
  apply (@String_injective id_two_roles id_no_role);
    reflexivity || discriminate.
Defined.

(** X3.  The legacy branch has no error path.  On a string without the
    delimiter, decoding never returns an error; it succeeds exactly when
    the split on the pipe has at least five segments, and it then takes the
    first five and ignores all further segments. *)
Theorem parse_legacy_no_error (s : gostring) :
  Contains s snowflake = false ->
  (forall e, parseStreamGrantID s <> Returns (Err e)) /\
  ((exists id, parseStreamGrantID s = Returns (Ok id)) <->
   5 <= length (Split s (str "|"))) /\
  (forall db sc ob pr wg rest,
     Split s (str "|") = db :: sc :: ob :: pr :: wg :: rest ->
     parseStreamGrantID s =
     Returns (Ok {| DatabaseName := db; SchemaName := sc; ObjectName := ob;
                    Privilege := pr; Roles := [];
                    WithGrantOption := streq wg (str "true") |})).
Proof.
  intros Hc; unfold parseStreamGrantID; rewrite Hc; cbn [negb].
  destruct (Split s (str "|")) as [|a [|b [|c [|d [|e l]]]]]; cbn;
    (split; [intros x; discriminate|]);
    (split; [split; [intros [id Hid]; discriminate || lia
                    | intros Hl; try lia; eexists; reflexivity]|]);
    intros db sc ob pr wg rest; try discriminate.
  now intros [= -> -> -> -> -> ->].
Qed.

Lemma parse_legacy_no_error_witness :
  parseStreamGrantID (str "db|sch|stream|SELECT|true|R1|R2") =
  Returns (Ok {| DatabaseName := str "db"; SchemaName := str "sch";
                 ObjectName := str "stream"; Privilege := str "SELECT";
                 Roles := []; WithGrantOption := true |}).
Proof.
  apply (proj2 (proj2 (@parse_legacy_no_error
                         (str "db|sch|stream|SELECT|true|R1|R2") eq_refl))
           (str "db") (str "sch") (str "stream") (str "SELECT") (str "true")
           [str "R1"; str "R2"]).
  reflexivity.
Defined.

Lemma Join_SplitStringToSlice (value sep : gostring) :
  Join (SplitStringToSlice value sep) sep = value.
Proof.
  unfold SplitStringToSlice; destruct value; [reflexivity | apply Join_Split].
Qed.

(** X12.  Encoding what was decoded gives the string back: for every
    current-format string that decodes and whose grant-option segment is
    "true" or "false", [String] of the decoded identifier is that string
    (the role list being split as [SplitStringToSlice] is modelled). *)
Theorem String_parse_identity (s : gostring) (id : StreamGrantID) (b : bool) :
  Contains s snowflake = true ->
  parseStreamGrantID s = Returns (Ok id) ->
  nth_error (Split s snowflake) 4 = Some (fmt_bool b) ->
  StreamGrantID_String id = s.
Proof.
  intros Hc Hp Hb; unfold parseStreamGrantID in Hp; rewrite Hc in Hp.
  cbn [negb] in Hp.
  pose proof (Join_Split s snowflake) as HJ.
  destruct (length (Split s snowflake) =? 6) eqn:E; [|discriminate].
  destruct (Split s snowflake) as [|f1 [|f2 [|f3 [|f4 [|f5 [|f6 [|]]]]]]];
    try discriminate.
  cbn in Hp, Hb; injection Hb as ->; injection Hp as <-.
  rewrite String_as_Join; cbn [DatabaseName SchemaName ObjectName Privilege
                                WithGrantOption Roles].
  now rewrite streq_fmt_bool, Join_SplitStringToSlice.
Qed.

Lemma String_parse_identity_witness :
  StreamGrantID_String id_two_roles = str "D" ++ snowflake ++ str "S" ++ snowflake ++
    str "T" ++ snowflake ++ str "SELECT" ++ snowflake ++ str "false" ++ snowflake ++
    str "R1,R2".
Proof.
  apply (@String_parse_identity _ id_two_roles false); reflexivity.
Defined.

(** ** More on the entry points *)

Lemma parse_short_index (s : gostring) :
  Contains s snowflake = false ->
  length (Split s (str "|")) < 5 ->
  parseStreamGrantID s =
  Panics (IndexOutOfRange (length (Split s (str "|"))) (length (Split s (str "|")))).
Proof.
  intros Hc Hn; unfold parseStreamGrantID; rewrite Hc; cbn [negb].
  destruct (Split s (str "|")) as [|a [|b [|c [|d [|e l]]]]];
    try reflexivity.
  simpl in Hn; lia.
Qed.

Lemma Update_no_id (d : ResourceData) (db : DB) :
  HasChanges d [str "roles"] = true ->
  (forall e, parseStreamGrantID (Id d) = Returns (Err e) ->
             UpdateStreamGrant (d, db) = Returns (Some e, (d, db))) /\
  (forall p, parseStreamGrantID (Id d) = Panics p ->
             UpdateStreamGrant (d, db) = Panics p).
Proof.
  intros Hch; split; intros x Hp; unfold UpdateStreamGrant;
    rewrite bind_eq; unfold get_d; cbn [fst]; rewrite Hch; cbn [negb];
    destruct (if HasChange d (str "roles") then changeDiff_roles d else ([], []));
    rewrite bind_eq; unfold lift; now rewrite Hp.
Qed.

Lemma Delete_eq (h : GrantBuilder -> M (option error)) (d : ResourceData) (db : DB) :
  DeleteStreamGrant h (d, db) =
  match parseStreamGrantID (Id d) with
  | Returns (Ok grantID) => h (builder_for grantID) (d, db)
  | Returns (Err e) => Returns (Some e, (d, db))
  | Panics p => Panics p
  end.
Proof.
  unfold DeleteStreamGrant; rewrite bind_eq; unfold get_d; cbn [fst].
  rewrite bind_eq; unfold lift.
  now destruct (parseStreamGrantID (Id d)) as [[grantID|e]|p].
Qed.

(** X5.  A current-format identifier with a segment count other than 6
    stops every decoding entry point at once: [ReadStreamGrant],
    [UpdateStreamGrant] (when the roles have changed) and
    [DeleteStreamGrant] return the segment-count error with the resource
    data and the client untouched, so nothing is written and no statement
    is sent. *)
Theorem decode_error_before_effects
    (deleteGenericGrant : GrantBuilder -> M (option error))
    (d : ResourceData) (db : DB) :
  Contains (Id d) snowflake = true ->
  length (Split (Id d) snowflake) <> 6 ->
  ReadStreamGrant (d, db) =
    Returns (Some (unexpected_parts (length (Split (Id d) snowflake))), (d, db)) /\
  (HasChanges d [str "roles"] = true ->
   UpdateStreamGrant (d, db) =
     Returns (Some (unexpected_parts (length (Split (Id d) snowflake))), (d, db))) /\
  DeleteStreamGrant deleteGenericGrant (d, db) =
    Returns (Some (unexpected_parts (length (Split (Id d) snowflake))), (d, db)).
Proof.
  intros Hc Hn; pose proof (parse_count_error _ Hc Hn) as Hp.
  split; [now apply Read_no_id|].
  split; [intros Hch; now apply Update_no_id|].
  now rewrite Delete_eq, Hp.
Qed.

Lemma decode_error_before_effects_witness :
  ReadStreamGrant (d_bad_id, db_ok) =
    Returns (Some (unexpected_parts 2), (d_bad_id, db_ok)) /\
  UpdateStreamGrant (d_bad_id, db_ok) =
    Returns (Some (unexpected_parts 2), (d_bad_id, db_ok)) /\
  DeleteStreamGrant (fun _ => ret None) (d_bad_id, db_ok) =
    Returns (Some (unexpected_parts 2), (d_bad_id, db_ok)).
Proof.
  assert (Hn : length (Split (Id d_bad_id) snowflake) <> 6) by (vm_compute; lia).
  destruct (@decode_error_before_effects (fun _ => ret None) d_bad_id db_ok
              eq_refl Hn) as (HR & HU & HD).
  split; [exact HR|]. split; [exact (HU eq_refl) | exact HD].
Defined.

(** X6.  An identifier without the delimiter and with fewer than five
    pipe-delimited segments, the empty identifier among them, makes every
    decoding entry point panic: [ReadStreamGrant], [UpdateStreamGrant]
    (when the roles have changed) and [DeleteStreamGrant] index past the
    end of the split instead of returning an error. *)
Theorem entry_points_panic_on_short_id
    (deleteGenericGrant : GrantBuilder -> M (option error))
    (d : ResourceData) (db : DB) :
  Contains (Id d) snowflake = false ->
  length (Split (Id d) (str "|")) < 5 ->
  ReadStreamGrant (d, db) =
    Panics (IndexOutOfRange (length (Split (Id d) (str "|")))
                            (length (Split (Id d) (str "|")))) /\
  (HasChanges d [str "roles"] = true ->
   UpdateStreamGrant (d, db) =
     Panics (IndexOutOfRange (length (Split (Id d) (str "|")))
                             (length (Split (Id d) (str "|"))))) /\
  DeleteStreamGrant deleteGenericGrant (d, db) =
    Panics (IndexOutOfRange (length (Split (Id d) (str "|")))
                            (length (Split (Id d) (str "|")))).
Proof.
  intros Hc Hn; pose proof (parse_short_index _ Hc Hn) as Hp.
  split; [now apply Read_no_id|].
  split; [intros Hch; now apply Update_no_id|].
  now rewrite Delete_eq, Hp.
Qed.

Lemma entry_points_panic_on_short_id_witness :
  Id d_no_id = [] /\
  ReadStreamGrant (d_no_id, db_ok) = Panics (IndexOutOfRange 1 1) /\
  UpdateStreamGrant (d_no_id, db_ok) = Panics (IndexOutOfRange 1 1) /\
  DeleteStreamGrant (fun _ => ret None) (d_no_id, db_ok) =
    Panics (IndexOutOfRange 1 1).
Proof.
  assert (Hn : length (Split (Id d_no_id) (str "|")) < 5) by (vm_compute; lia).
  destruct (@entry_points_panic_on_short_id (fun _ => ret None) d_no_id db_ok
              eq_refl Hn) as (HR & HU & HD).
  split; [reflexivity|]. split; [exact HR|]. split; [exact (HU eq_refl) | exact HD].
Defined.

Lemma create_builder_for (d : ResourceData) :
  ~ rejected d -> create_builder d = builder_for (declared_id d).
Proof.
  intros Hr; unfold create_builder, builder_for, declared_id, rejected in *.
  cbn [ObjectName DatabaseName SchemaName].
  destruct (on_future d) eqn:F, (streq (stream_name d) []) eqn:S;
    try reflexivity; exfalso; apply Hr.
  - apply streq_false in S; tauto.
  - apply streq_true in S; tauto.
Qed.

(** X7.  One builder per identifier.  For resource data that pass the
    validation, the builder [CreateStreamGrant] grants on, chosen by
    [on_future], is the builder the other entry points derive from the
    object name of the identifier it persists; and [DeleteStreamGrant]
    hands over with exactly that builder, leaving resource data and client
    to the generic delete. *)
Theorem one_builder_per_identifier
    (deleteGenericGrant : GrantBuilder -> M (option error))
    (d : ResourceData) (db : DB) :
  (~ rejected d ->
   create_builder d = builder_for (declared_id d) /\
   CreateStreamGrant (d, db) =
   (check createGenericGrant (builder_for (declared_id d)) ;;
    SetId (StreamGrantID_String (declared_id d)) ;;;
    ReadStreamGrant) (d, db)) /\
  (forall grantID,
     parseStreamGrantID (Id d) = Returns (Ok grantID) ->
     DeleteStreamGrant deleteGenericGrant (d, db) =
     deleteGenericGrant (builder_for grantID) (d, db)).
Proof.
  split.
  - intros Hr; split; [now apply create_builder_for|].
    rewrite <- (create_builder_for Hr), Create_eq.
    destruct (streq (stream_name d) [] && negb (on_future d)) eqn:E1;
      [exfalso; apply Hr, rejected_dec; rewrite E1; auto|].
    destruct (negb (streq (stream_name d) []) && on_future d) eqn:E2;
      [exfalso; apply Hr, rejected_dec; rewrite E2; auto|].
    destruct (streq (schema_name d) [] && negb (on_future d)) eqn:E3;
      [exfalso; apply Hr, rejected_dec; rewrite E3; auto|].
    reflexivity.
  - intros grantID Hp; now rewrite Delete_eq, Hp.
Qed.

(** X8.  A completed read overwrites the configured fields with those of
    the identifier: database, schema, stream name, privilege and grant
    option are the decoded ones, and [on_future] is set exactly when the
    decoded object name is empty, whatever the configuration said.  The
    multiple-grants flag and the recorded previous roles are not touched. *)
Theorem Read_writes_identifier_fields (d : ResourceData) (db : DB) (grantID : StreamGrantID) :
  parseStreamGrantID (Id d) = Returns (Ok grantID) ->
  exists r d' db',
    ReadStreamGrant (d, db) = Returns (r, (d', db')) /\
    database_name d' = DatabaseName grantID /\
    schema_name d' = SchemaName grantID /\
    stream_name d' = ObjectName grantID /\
    privilege d' = Privilege grantID /\
    with_grant_option d' = WithGrantOption grantID /\
    (on_future d' = true <-> stream_name d' = []) /\
    enable_multiple_grants d' = enable_multiple_grants d /\
    prior_roles d' = prior_roles d.
Proof.
  intros Hp; unfold ReadStreamGrant, bind, get_d, lift; cbn [fst].
  rewrite Hp; cbn -[streq].
  destruct (streq (ObjectName grantID) []) eqn:S; cbn -[streq];
    match goal with
    | |- context [driver db (issued db) ?q] =>
        destruct (driver db (issued db) q) as [rows|[|msg]]
    end; cbn -[streq]; do 3 eexists;
    (split; [reflexivity|]); cbn -[streq]; repeat split; try reflexivity;
    try discriminate;
    try (intros _; now apply streq_true);
    intros E; apply streq_false in S; congruence.
Qed.

Lemma Read_writes_identifier_fields_witness :
  exists r d' db',
    ReadStreamGrant (d_update, db_gone) = Returns (r, (d', db')) /\
    database_name d' = str "D" /\ schema_name d' = str "S" /\
    stream_name d' = str "T" /\ privilege d' = str "SELECT" /\
    with_grant_option d' = false /\
    (on_future d' = true <-> stream_name d' = []) /\
    enable_multiple_grants d' = false /\
    prior_roles d' = [str "A"; str "B"].
Proof.
  apply (@Read_writes_identifier_fields d_update db_gone id_two_roles).
  reflexivity.
Defined.

Lemma parse_current_returns (s : gostring) :
  Contains s snowflake = true -> exists r, parseStreamGrantID s = Returns r.
Proof.
  intros Hc; unfold parseStreamGrantID; rewrite Hc; cbn [negb].
  destruct (length (Split s snowflake) =? 6) eqn:E; cbn [negb]; [|now eexists].
  destruct (Split s snowflake) as [|a [|b [|c [|d [|e [|f [|]]]]]]];
    try discriminate.
  cbn; now eexists.
Qed.

(** After the validation, [CreateStreamGrant] either returns an error of
    the generic create, or has persisted the identifier and ends in
    [ReadStreamGrant]. *)
Lemma Create_tail_run (b : GrantBuilder) (d : ResourceData) (db : DB) :
  (exists e w,
     (check createGenericGrant b ;;
      SetId (StreamGrantID_String (declared_id d)) ;;;
      ReadStreamGrant) (d, db) = Returns (Some e, w)) \/
  (exists d' done,
     Id d' = StreamGrantID_String (declared_id d) /\
     (check createGenericGrant b ;;
      SetId (StreamGrantID_String (declared_id d)) ;;;
      ReadStreamGrant) (d, db) =
     ReadStreamGrant (d', mkDB (driver db) (issued db ++ done))).
Proof.
  rewrite bind_eq, createGenericGrant_eq.
  destruct (grant_loop b (privilege d) (with_grant_option d) (roles d) d db)
    as (r1 & done & Hr1 & _).
  rewrite Hr1; destruct r1 as [e1|]; [left; do 2 eexists; reflexivity|].
  right; rewrite bind_eq, SetId_run.
  do 2 eexists; split; [|reflexivity]; reflexivity.
Qed.

Lemma Read_returns (d : ResourceData) (db : DB) :
  (exists r, parseStreamGrantID (Id d) = Returns r) ->
  exists r w, ReadStreamGrant (d, db) = Returns (r, w).
Proof.
  intros [[grantID|e] Hp].
  - destruct (Read_run d db Hp) as (r & d' & Hr & _); do 2 eexists; exact Hr.
  - rewrite (proj1 (Read_no_id d db) _ Hp); do 2 eexists; reflexivity.
Qed.

(** X9.  [CreateStreamGrant] never panics: the identifier it persists
    always holds the delimiter, so the read that ends the create decodes it
    on the branch that checks the segment count. *)
Theorem Create_never_panics (d : ResourceData) (db : DB) :
  exists r w, CreateStreamGrant (d, db) = Returns (r, w).
Proof.
  rewrite Create_eq.
  destruct (streq (stream_name d) [] && negb (on_future d)); [do 2 eexists; reflexivity|].
  destruct (negb (streq (stream_name d) []) && on_future d); [do 2 eexists; reflexivity|].
  destruct (streq (schema_name d) [] && negb (on_future d)); [do 2 eexists; reflexivity|].
  match goal with
  | |- context [createGenericGrant ?b] =>
      destruct (Create_tail_run b d db)
        as [(e & w & ->) | (d' & done & Hid & ->)]
  end; [do 2 eexists; reflexivity|].
  apply Read_returns; rewrite Hid.
  apply parse_current_returns, Contains_String_any.
Qed.

(** X10.  A declared field that holds the delimiter is not refused by the
    validation, yet the create cannot succeed: for resource data that pass
    the validation and have the delimiter in the database, schema, stream
    or privilege name or in the joined roles, [CreateStreamGrant] always
    returns an error. *)
Theorem Create_fails_on_delimiter_in_field (d : ResourceData) (db : DB) :
  ~ rejected d ->
  delimiter_free (declared_id d) = false ->
  exists e w, CreateStreamGrant (d, db) = Returns (Some e, w).
Proof.
  intros Hr Hf; rewrite Create_eq.
  destruct (streq (stream_name d) [] && negb (on_future d)); [do 2 eexists; reflexivity|].
  destruct (negb (streq (stream_name d) []) && on_future d); [do 2 eexists; reflexivity|].
  destruct (streq (schema_name d) [] && negb (on_future d)); [do 2 eexists; reflexivity|].
  match goal with
  | |- context [createGenericGrant ?b] =>
      destruct (Create_tail_run b d db)
        as [(e & w & ->) | (d' & done & Hid & ->)]
  end; [do 2 eexists; reflexivity|].
  apply length_Split_String in Hf.
  assert (Hp : parseStreamGrantID (Id d') =
               Returns (Err (unexpected_parts
                  (length (Split (StreamGrantID_String (declared_id d)) snowflake))))).
  { rewrite Hid; apply parse_count_error; [apply Contains_String_any | lia]. }
  rewrite (proj1 (Read_no_id d' _) _ Hp); do 2 eexists; reflexivity.
Qed.

Lemma Create_fails_on_delimiter_in_field_witness :
  ~ rejected d_delimiter /\
  delimiter_free (declared_id d_delimiter) = false /\
  exists e w, CreateStreamGrant (d_delimiter, db_ok) = Returns (Some e, w).
Proof.
  assert (Hr : ~ rejected d_delimiter)
    by (unfold rejected; simpl; intuition discriminate).
  split; [exact Hr|]. split; [reflexivity|].
  apply (@Create_fails_on_delimiter_in_field d_delimiter db_ok Hr); reflexivity.
Defined.

Lemma parse_Ok_nonempty (s : gostring) (g : StreamGrantID) :
  parseStreamGrantID s = Returns (Ok g) -> s <> [].
Proof. intros H ->; discriminate. Qed.

(** A loop of statements does not look at the resource data. *)
Definition data_blind (m : M (option error)) : Prop :=
  forall d1 d2 db, exists r db',
    m (d1, db) = Returns (r, (d1, db')) /\ m (d2, db) = Returns (r, (d2, db')).

Lemma data_blind_nil : data_blind (ret None).
Proof. intros d1 d2 db; now exists None, db. Qed.

Lemma data_blind_cons (q : statement) (m : M (option error)) :
  data_blind m -> data_blind (check Exec q ;; m).
Proof.
  intros Hm d1 d2 db; unfold bind; rewrite !Exec_run.
  destruct (driver db (issued db) q) as [rows|e].
  - apply Hm.
  - do 2 eexists; split; reflexivity.
Qed.

Lemma revoke_loop_blind (b : GrantBuilder) (p : gostring) (roles : list gostring) :
  data_blind (deleteGenericGrantRolesAndShares b p roles []).
Proof.
  induction roles; [apply data_blind_nil | now apply data_blind_cons].
Qed.

Lemma grant_loop_blind (b : GrantBuilder) (p : gostring) (g : bool) (roles : list gostring) :
  data_blind (createGenericGrantRolesAndShares b p g roles []).
Proof.
  induction roles; [apply data_blind_nil | now apply data_blind_cons].
Qed.

Lemma builder_for_same (g1 g2 : StreamGrantID) :
  same_target g1 g2 -> builder_for g1 = builder_for g2.
Proof.
  intros (H1 & H2 & H3 & _); unfold builder_for; now rewrite H1, H2, H3.
Qed.

(** The read does not use the decoded role list. *)
Lemma Read_same_target (d : ResourceData) (db : DB) (v : gostring)
    (g1 g2 : StreamGrantID) :
  parseStreamGrantID (Id d) = Returns (Ok g1) ->
  parseStreamGrantID v = Returns (Ok g2) ->
  same_target g1 g2 ->
  exists r d1 d2 db',
    ReadStreamGrant (d, db) = Returns (r, (d1, db')) /\
    ReadStreamGrant (with_Id v d, db) = Returns (r, (d2, db')) /\
    with_Id [] d1 = with_Id [] d2 /\
    (Id d1 = [] <-> Id d2 = []).
Proof.
  intros Hp1 Hp2 Hs.
  pose proof (parse_Ok_nonempty Hp1) as N1.
  pose proof (parse_Ok_nonempty Hp2) as N2.
  destruct Hs as (H1 & H2 & H3 & H4 & H5).
  unfold ReadStreamGrant, bind, get_d, lift; cbn [fst with_Id Id].
  rewrite Hp1, Hp2, <- H1, <- H2, <- H3, <- H4, <- H5; cbn -[streq].
  destruct (streq (ObjectName g1) []); cbn -[streq];
    match goal with
    | |- context [driver db (issued db) ?q] =>
        destruct (driver db (issued db) q) as [rows|[|msg]]
    end; cbn -[streq]; do 4 eexists;
    (split; [reflexivity|]); (split; [reflexivity|]); cbn;
    (split; [reflexivity|]); split; intros; congruence.
Qed.

(** X11.  The role list of the decoded identifier is never used.  Two
    identifiers that decode to the same names, privilege and grant option
    make [ReadStreamGrant] and [UpdateStreamGrant] return the same result,
    send the same statements and leave the same resource data apart from
    the identifier itself, whatever their role-list segments are. *)
Theorem decoded_roles_unused (d : ResourceData) (db : DB) (v : gostring)
    (g1 g2 : StreamGrantID) :
  parseStreamGrantID (Id d) = Returns (Ok g1) ->
  parseStreamGrantID v = Returns (Ok g2) ->
  same_target g1 g2 ->
  (exists r d1 d2 db',
     ReadStreamGrant (d, db) = Returns (r, (d1, db')) /\
     ReadStreamGrant (with_Id v d, db) = Returns (r, (d2, db')) /\
     with_Id [] d1 = with_Id [] d2 /\
     (Id d1 = [] <-> Id d2 = [])) /\
  (exists r d1 d2 db',
     UpdateStreamGrant (d, db) = Returns (r, (d1, db')) /\
     UpdateStreamGrant (with_Id v d, db) = Returns (r, (d2, db')) /\
     with_Id [] d1 = with_Id [] d2 /\
     (Id d1 = [] <-> Id d2 = [])).
Proof.
  intros Hp1 Hp2 Hs; split; [now apply Read_same_target with g1 g2|].
  pose proof (parse_Ok_nonempty Hp1) as N1.
  pose proof (parse_Ok_nonempty Hp2) as N2.
  destruct (HasChanges d [str "roles"]) eqn:Hch.
  - assert (Hch2 : HasChanges (with_Id v d) [str "roles"] = true) by exact Hch.
    rewrite (@Update_eq d db g1 Hch Hp1).
    rewrite (@Update_eq (with_Id v d) db g2 Hch2 Hp2).
    rewrite <- (builder_for_same Hs).
    destruct Hs as (H1 & H2 & H3 & H4 & H5); rewrite <- H4, <- H5.
    cbn [with_Id prior_roles roles].
    rewrite !bind_eq.
    destruct (revoke_loop_blind (builder_for g1) (Privilege g1)
                (Difference (prior_roles d) (roles d)) d (with_Id v d) db)
      as (r1 & db1 & -> & ->).
    destruct r1 as [e1|].
    { exists (Some e1), d, (with_Id v d), db1.
      repeat split; try reflexivity; cbn [with_Id Id]; intros; congruence. }
    rewrite !bind_eq.
    destruct (grant_loop_blind (builder_for g1) (Privilege g1) (WithGrantOption g1)
                (Difference (roles d) (prior_roles d)) d (with_Id v d) db1)
      as (r2 & db2 & -> & ->).
    destruct r2 as [e2|].
    { exists (Some e2), d, (with_Id v d), db2.
      repeat split; try reflexivity; cbn [with_Id Id]; intros; congruence. }
    apply Read_same_target with g1 g2; try assumption.
    now repeat split.
  - exists None, d, (with_Id v d), db.
    assert (Hnop : forall d0, HasChanges d0 [str "roles"] = false ->
                   UpdateStreamGrant (d0, db) = Returns (None, (d0, db))).
    { intros d0 H; unfold UpdateStreamGrant.
      rewrite bind_eq; unfold get_d; cbn [fst]; now rewrite H. }
    rewrite !Hnop by exact Hch.
    repeat split; try reflexivity; cbn [with_Id Id]; intros; congruence.
Qed.

Lemma decoded_roles_unused_witness :
  exists r d1 d2 db',
    UpdateStreamGrant (d_update, db_ok) = Returns (r, (d1, db')) /\
    UpdateStreamGrant
      (with_Id (StreamGrantID_String id_split_roles) d_update, db_ok) =
      Returns (r, (d2, db')) /\
    with_Id [] d1 = with_Id [] d2 /\
    (Id d1 = [] <-> Id d2 = []).
Proof.
  apply (proj2 (@decoded_roles_unused d_update db_ok
                  (StreamGrantID_String id_split_roles)
                  id_two_roles id_split_roles eq_refl eq_refl
                  (conj eq_refl (conj eq_refl (conj eq_refl (conj eq_refl eq_refl)))))).
Defined.

(** X4.  Decoding loses nothing of a string.  A current-format string that
    decodes, with a grant-option segment "true" or "false", is the join of
    the decoded database, schema, object and privilege, the text of the
    decoded grant option and its own role segment, from which the decoded
    roles are split. *)
Theorem parse_keeps_segments (s : gostring) (id : StreamGrantID) (b : bool) :
  Contains s snowflake = true ->
  parseStreamGrantID s = Returns (Ok id) ->
  nth_error (Split s snowflake) 4 = Some (fmt_bool b) ->
  exists segment,
    nth_error (Split s snowflake) 5 = Some segment /\
    Roles id = SplitStringToSlice segment (str ",") /\
    WithGrantOption id = b /\
    s = DatabaseName id ++ snowflake ++ SchemaName id ++ snowflake ++
        ObjectName id ++ snowflake ++ Privilege id ++ snowflake ++
        fmt_bool (WithGrantOption id) ++ snowflake ++ segment.
Proof.
  intros Hc Hp Hb; unfold parseStreamGrantID in Hp; rewrite Hc in Hp.
  cbn [negb] in Hp.
  pose proof (Join_Split s snowflake) as HJ.
  destruct (length (Split s snowflake) =? 6) eqn:E; [|discriminate].
  destruct (Split s snowflake) as [|f1 [|f2 [|f3 [|f4 [|f5 [|f6 [|]]]]]]];
    try discriminate.
  cbn in Hp, Hb; injection Hb as ->; injection Hp as <-.
  exists f6; cbn [DatabaseName SchemaName ObjectName Privilege
                  WithGrantOption Roles nth_error].
  rewrite streq_fmt_bool; repeat split; symmetry; exact HJ.
Qed.

Lemma parse_keeps_segments_witness :
  exists segment,
    nth_error (Split (StreamGrantID_String id_two_roles) snowflake) 5 = Some segment /\
    Roles id_two_roles = SplitStringToSlice segment (str ",") /\
    WithGrantOption id_two_roles = false /\
    StreamGrantID_String id_two_roles =
      DatabaseName id_two_roles ++ snowflake ++ SchemaName id_two_roles ++ snowflake ++
      ObjectName id_two_roles ++ snowflake ++ Privilege id_two_roles ++ snowflake ++
      fmt_bool (WithGrantOption id_two_roles) ++ snowflake ++ segment.
Proof.
  apply (@parse_keeps_segments (StreamGrantID_String id_two_roles) id_two_roles false);
    reflexivity.
Defined.

(** ** The role set on create and on update *)

(** What [ReadStreamGrant] returns and writes once the identifier is
    decoded, by the driver's answer to the [Show]. *)
Lemma Read_reply (d : ResourceData) (db : DB) (grantID : StreamGrantID) :
  parseStreamGrantID (Id d) = Returns (Ok grantID) ->
  exists d',
    ReadStreamGrant (d, db) =
      Returns (update_error
                 (refused (driver db) (issued db) [Show (builder_for grantID)]),
               (d', mkDB (driver db) (issued db ++ [Show (builder_for grantID)]))) /\
    (forall rows,
       driver db (issued db) (Show (builder_for grantID)) = Done rows ->
       Id d' = Id d /\
       roles d' =
         map GranteeName
             (filter (fun g => streq (GrantPrivilege g) (Privilege grantID)) rows)).
Proof.
  intros Hp; unfold ReadStreamGrant, bind, get_d, lift; cbn [fst].
  rewrite Hp; cbn -[streq].
  unfold builder_for.
  destruct (streq (ObjectName grantID) []); cbn -[streq];
    match goal with
    | |- context [driver db (issued db) ?q] =>
        destruct (driver db (issued db) q) as [rows|[|msg]]
    end; cbn -[streq]; eexists; (split; [reflexivity|]);
    intros rows' [= <-]; split; reflexivity.
Qed.



Lemma refused_app (drv : list statement -> statement -> reply) (l1 l2 : list statement) :
  forall log,
  refused drv log (l1 ++ l2) =
  match refused drv log l1 with
  | Some f => Some f
  | None => refused drv (log ++ l1) l2
  end.
Proof.
  induction l1 as [|q l1 IH]; intros log; [now rewrite app_nil_r|].
  rewrite <- app_comm_cons; cbn [refused]; destruct (drv log q); [|reflexivity].
  rewrite IH, <- app_assoc; reflexivity.
Qed.

Lemma sent_app (drv : list statement -> statement -> reply) (l1 l2 : list statement) :
  forall log,
  sent drv log (l1 ++ l2) =
  match refused drv log l1 with
  | Some _ => sent drv log l1
  | None => l1 ++ sent drv (log ++ l1) l2
  end.
Proof.
  induction l1 as [|q l1 IH]; intros log; [now rewrite app_nil_r|].
  rewrite <- app_comm_cons; cbn [refused sent]; destruct (drv log q); [|reflexivity].
  rewrite IH, <- app_assoc; cbn [app].
  now destruct (refused drv (log ++ [q]) l1).
Qed.

Lemma sent_all (drv : list statement -> statement -> reply) (plan : list statement) :
  forall log, refused drv log plan = None -> sent drv log plan = plan.
Proof.
  induction plan as [|q plan IH]; intros log; [reflexivity|].
  cbn [refused sent]; destruct (drv log q); [|discriminate].
  intros H; now rewrite IH.
Qed.

Lemma sent_single (drv : list statement -> statement -> reply)
    (log : list statement) (q : statement) :
  sent drv log [q] = [q].
Proof. cbn [sent]; now destruct (drv log q). Qed.

Lemma refused_In (drv : list statement -> statement -> reply) (plan : list statement) :
  forall log q e, refused drv log plan = Some (q, e) -> In q plan.
Proof.
  induction plan as [|q' plan IH]; intros log q e; [discriminate|].
  cbn [refused]; destruct (drv log q').
  - intros H; right; now apply IH in H.
  - intros [= <- <-]; now left.
Qed.

(** A loop of statements sends each one in turn until the driver refuses
    one, whose error it returns; the resource data are not touched. *)
Definition runs_exactly (m : M (option error)) (stmts : list statement) : Prop :=
  forall d db,
    m (d, db) =
    Returns (loop_error (refused (driver db) (issued db) stmts),
             (d, mkDB (driver db)
                   (issued db ++ sent (driver db) (issued db) stmts))).

Lemma runs_exactly_nil : runs_exactly (ret None) [].
Proof. intros d db; cbn [refused sent loop_error]; now rewrite app_nil_r, DB_eta. Qed.

Lemma runs_exactly_cons (q : statement) (m : M (option error)) (stmts : list statement) :
  runs_exactly m stmts -> runs_exactly (check Exec q ;; m) (q :: stmts).
Proof.
  intros Hm d db; unfold bind; rewrite Exec_run; cbn [refused sent].
  destruct (driver db (issued db) q) as [rows|e]; [|reflexivity].
  rewrite Hm; cbn [driver issued]; now rewrite <- app_assoc.
Qed.

Lemma revoke_loop_exact (b : GrantBuilder) (p : gostring) (roles : list gostring) :
  runs_exactly (deleteGenericGrantRolesAndShares b p roles [])
               (map (fun role => Revoke b role p) roles).
Proof.
  induction roles; [apply runs_exactly_nil | now apply runs_exactly_cons].
Qed.

Lemma grant_loop_exact (b : GrantBuilder) (p : gostring) (g : bool) (roles : list gostring) :
  runs_exactly (createGenericGrantRolesAndShares b p g roles [])
               (map (fun role => Grant b role p g) roles).
Proof.
  induction roles; [apply runs_exactly_nil | now apply runs_exactly_cons].
Qed.

Lemma update_error_loop (f : option (statement * sql_error)) :
  (forall q e, f = Some (q, e) -> forall b, q <> Show b) ->
  update_error f = loop_error f.
Proof.
  destruct f as [[q e]|]; [|reflexivity].
  intros H; specialize (H q e eq_refl).
  destruct q; [now destruct (H b) | reflexivity | reflexivity].
Qed.

Lemma refused_not_Show (drv : list statement -> statement -> reply)
    (log : list statement) (b : GrantBuilder) (p : gostring) (g : bool)
    (l1 l2 : list gostring) (q : statement) (e : sql_error) :
  refused drv log (map (fun role => Revoke b role p) l1 ++
                   map (fun role => Grant b role p g) l2) = Some (q, e) ->
  forall b', q <> Show b'.
Proof.
  intros H b' ->; apply refused_In in H.
  apply in_app_or in H as [H | H]; apply in_map_iff in H as (role & H & _);
    discriminate.
Qed.

(** The whole of an update with changed roles and a decoded identifier. *)
Lemma Update_run (d : ResourceData) (db : DB) (grantID : StreamGrantID) :
  HasChanges d [str "roles"] = true ->
  parseStreamGrantID (Id d) = Returns (Ok grantID) ->
  exists d',
    UpdateStreamGrant (d, db) =
      Returns (update_error (refused (driver db) (issued db) (update_plan d grantID)),
               (d', mkDB (driver db)
                      (issued db ++
                       sent (driver db) (issued db) (update_plan d grantID)))) /\
    (refused (driver db) (issued db) (update_plan d grantID) = None ->
     exists rows,
       driver db
         (issued db ++
          map (fun role => Revoke (builder_for grantID) role (Privilege grantID))
              (Difference (prior_roles d) (roles d)) ++
          map (fun role => Grant (builder_for grantID) role (Privilege grantID)
                                 (WithGrantOption grantID))
              (Difference (roles d) (prior_roles d)))
         (Show (builder_for grantID)) = Done rows /\
       Id d' = Id d /\
       roles d' =
         map GranteeName
             (filter (fun g => streq (GrantPrivilege g) (Privilege grantID)) rows)).
Proof.
  intros Hch Hp; rewrite (@Update_eq d db grantID Hch Hp); unfold update_plan.
  set (b := builder_for grantID).
  set (R := map (fun role => Revoke b role (Privilege grantID))
                (Difference (prior_roles d) (roles d))).
  set (G := map (fun role => Grant b role (Privilege grantID) (WithGrantOption grantID))
                (Difference (roles d) (prior_roles d))).
  rewrite (app_assoc R G), refused_app, sent_app.
  pose proof (@refused_not_Show (driver db) (issued db) b (Privilege grantID)
                (WithGrantOption grantID) (Difference (prior_roles d) (roles d))
                (Difference (roles d) (prior_roles d))) as HnS.
  fold R G in HnS.
  rewrite bind_eq.
  rewrite (revoke_loop_exact b (Privilege grantID)
             (Difference (prior_roles d) (roles d)) d db).
  fold R; rewrite refused_app, sent_app in *.
  destruct (refused (driver db) (issued db) R) as [[q e]|] eqn:ER.
  { cbn [loop_error]; exists d; split; [|discriminate].
    rewrite update_error_loop by (intros q' e' [= <- <-]; now apply (HnS q e)).
    reflexivity. }
  cbn [loop_error]; rewrite bind_eq, (@sent_all (driver db) R (issued db) ER).
  rewrite (grant_loop_exact b (Privilege grantID) (WithGrantOption grantID)
             (Difference (roles d) (prior_roles d)) d _).
  fold G; cbn [driver issued].
  destruct (refused (driver db) (issued db ++ R) G) as [[q e]|] eqn:EG.
  { cbn [loop_error]; exists d; split; [|discriminate].
    rewrite update_error_loop by (intros q' e' [= <- <-]; now apply (HnS q e)).
    now rewrite <- app_assoc. }
  cbn [loop_error]; rewrite (@sent_all (driver db) G (issued db ++ R) EG).
  match goal with
  | |- context [ReadStreamGrant (d, ?db2)] =>
      destruct (@Read_reply d db2 grantID Hp) as (d' & Hread & Hd')
  end.
  cbn [driver issued] in Hread, Hd'; fold b in Hread, Hd'.
  exists d'; rewrite Hread, <- !app_assoc, sent_single; split; [reflexivity|].
  cbn [refused]; rewrite <- !app_assoc in Hd'.
  destruct (driver db (issued db ++ R ++ G) (Show b)) as [rows|e] eqn:ES;
    [|discriminate].
  intros _; exists rows; split; [reflexivity|]; now apply Hd'.
Qed.

Lemma Contains_elem_iff (x : gostring) (l : list gostring) :
  Contains_elem x l = true <-> In x l.
Proof.
  unfold Contains_elem; rewrite existsb_exists; split.
  - intros (y & Hy & E); apply streq_true in E; now subst.
  - intros H; exists x; split; [assumption | apply streq_refl].
Qed.

Lemma In_Difference (x : gostring) (a b : list gostring) :
  In x (Difference a b) <-> In x a /\ ~ In x b.
Proof.
  unfold Difference; split.
  - intros H; apply filter_In in H as [Ha Hb]; split; [assumption|].
    intros Hin; apply Contains_elem_In in Hin; rewrite Hin in Hb; discriminate.
  - intros [Ha Hb]; apply filter_In; split; [assumption|].
    destruct (Contains_elem x b) eqn:E; [|reflexivity].
    apply Contains_elem_iff in E; contradiction.
Qed.

Lemma Equal_iff (a b : list gostring) :
  Equal a b = true <->
  (forall x, In x a -> In x b) /\ (forall x, In x b -> In x a).
Proof.
  unfold Equal; rewrite andb_true_iff, !forallb_forall.
  split; intros [H1 H2]; split; intros x Hx;
    apply Contains_elem_iff; auto.
Qed.

Lemma Difference_nil (a b : list gostring) :
  (forall x, In x a -> In x b) -> Difference a b = [].
Proof.
  intros H; destruct (Difference a b) as [|x l] eqn:E; [reflexivity|].
  assert (Hx : In x (Difference a b)) by (rewrite E; now left).
  apply In_Difference in Hx as [Ha Hb]; now destruct Hb; apply H.
Qed.

Lemma In_grant_to (x role : gostring) (held : list gostring) :
  In x (grant_to role held) <-> In x held \/ x = role.
Proof.
  unfold grant_to; destruct (Contains_elem role held) eqn:E.
  - apply Contains_elem_iff in E; split; [tauto | intros [H | ->]; assumption].
  - rewrite in_app_iff; simpl; intuition congruence.
Qed.

Lemma In_revoke_from (x role : gostring) (held : list gostring) :
  In x (revoke_from role held) <-> In x held /\ x <> role.
Proof.
  unfold revoke_from; rewrite filter_In, negb_true_iff, streq_false; tauto.
Qed.

Lemma holders_app (l1 l2 : list statement) :
  forall held, holders held (l1 ++ l2) = holders (holders held l1) l2.
Proof.
  induction l1 as [|q l1 IH]; intros held; [reflexivity|].
  rewrite <- app_comm_cons; destruct q; cbn [holders]; apply IH.
Qed.

Lemma holders_revokes (b : GrantBuilder) (p x : gostring) (l : list gostring) :
  forall held,
  In x (holders held (map (fun role => Revoke b role p) l)) <->
  In x held /\ ~ In x l.
Proof.
  induction l as [|role l IH]; intros held; cbn [map holders]; [simpl; tauto|].
  rewrite IH, In_revoke_from; simpl; intuition congruence.
Qed.

Lemma holders_grants (b : GrantBuilder) (p x : gostring) (g : bool) (l : list gostring) :
  forall held,
  In x (holders held (map (fun role => Grant b role p g) l)) <->
  In x held \/ In x l.
Proof.
  induction l as [|role l IH]; intros held; cbn [map holders]; [simpl; tauto|].
  rewrite IH, In_grant_to; simpl; intuition congruence.
Qed.

(** After the revokes and the grants of an update, the warehouse holds
    exactly the desired roles. *)
Lemma holders_update (b : GrantBuilder) (p : gostring) (g : bool)
    (previous desired : list gostring) :
  Equal (holders previous
           (map (fun role => Revoke b role p) (Difference previous desired) ++
            map (fun role => Grant b role p g) (Difference desired previous)))
        desired = true.
Proof.
  apply Equal_iff; split; intros x;
    rewrite holders_app, holders_grants, holders_revokes, !In_Difference;
    destruct (Contains_elem x previous) eqn:Ep, (Contains_elem x desired) eqn:Ed;
    try (apply Contains_elem_iff in Ep); try (apply Contains_elem_iff in Ed);
    try (assert (~ In x previous)
           by (rewrite <- Contains_elem_iff; congruence));
    try (assert (~ In x desired)
           by (rewrite <- Contains_elem_iff; congruence));
    tauto.
Qed.

Lemma warehouse_accepts (p : gostring) (g : bool) (held : list gostring)
    (plan : list statement) :
  forall log, refused (warehouse p g held) log plan = None.
Proof.
  induction plan as [|q plan IH]; intros log; [reflexivity|].
  cbn [refused]; destruct q; cbn [warehouse]; apply IH.
Qed.

Lemma warehouse_rows (p : gostring) (g : bool) (held : list gostring) :
  map GranteeName
      (filter (fun r => streq (GrantPrivilege r) p)
              (map (fun role => mkGrant role p g) held)) = held.
Proof.
  induction held as [|role held IH]; [reflexivity|].
  cbn [map filter GrantPrivilege]; rewrite streq_refl.
  cbn [map GranteeName]; now rewrite IH.
Qed.

Lemma Update_unchanged (d : ResourceData) (db : DB) :
  HasChanges d [str "roles"] = false ->
  UpdateStreamGrant (d, db) = Returns (None, (d, db)).
Proof.
  intros H; unfold UpdateStreamGrant.
  rewrite bind_eq; unfold get_d; cbn [fst]; now rewrite H.
Qed.

(** C6.  Without a change of the roles [UpdateStreamGrant] returns [nil]
    and leaves the resource data and the client as they were.  With a
    change (and a decodable identifier) it sends the plan "revoke the
    previous roles that are not desired, then grant the desired roles that
    are not previous, then read" statement by statement, up to and
    including the first one the driver refuses, and returns the error of
    that statement (none for a no-rows answer to the read); so all revokes
    come before any grant, and when the driver accepts every statement the
    whole plan is sent and [nil] returned.  On a warehouse that holds the
    previous roles and keeps what it is told, the update returns [nil], the
    read finds exactly the desired roles, and the next update with the same
    desired roles has empty differences and sends nothing. *)
Theorem Update_roles (d : ResourceData) (db : DB) :
  (HasChanges d [str "roles"] = false ->
   UpdateStreamGrant (d, db) = Returns (None, (d, db))) /\
  (forall grantID,
     HasChanges d [str "roles"] = true ->
     parseStreamGrantID (Id d) = Returns (Ok grantID) ->
     (exists d',
        UpdateStreamGrant (d, db) =
          Returns (update_error
                     (refused (driver db) (issued db) (update_plan d grantID)),
                   (d', mkDB (driver db)
                          (issued db ++
                           sent (driver db) (issued db) (update_plan d grantID))))) /\
     (refused (driver db) (issued db) (update_plan d grantID) = None ->
      exists d',
        UpdateStreamGrant (d, db) =
          Returns (None, (d', mkDB (driver db)
                                (issued db ++ update_plan d grantID)))) /\
     (exists d',
        UpdateStreamGrant
          (d, mkDB (warehouse (Privilege grantID) (WithGrantOption grantID)
                              (prior_roles d)) []) =
          Returns (None,
                   (d', mkDB (warehouse (Privilege grantID) (WithGrantOption grantID)
                                        (prior_roles d))
                             (update_plan d grantID))) /\
        Equal (roles d') (roles d) = true /\
        changeDiff_roles (next_update (roles d) d') = ([], []) /\
        forall db2,
          UpdateStreamGrant (next_update (roles d) d', db2) =
            Returns (None, (next_update (roles d) d', db2)))).
Proof.
  split; [apply Update_unchanged|].
  intros grantID Hch Hp; split; [|split].
  - destruct (@Update_run d db grantID Hch Hp) as (d' & Hrun & _).
    now exists d'.
  - intros Hacc.
    destruct (@Update_run d db grantID Hch Hp) as (d' & Hrun & _).
    exists d'; now rewrite Hrun, Hacc, (sent_all _ _ _ Hacc).
  - set (w := mkDB (warehouse (Privilege grantID) (WithGrantOption grantID)
                              (prior_roles d)) []).
    destruct (@Update_run d w grantID Hch Hp) as (d' & Hrun & Hrows).
    pose proof (warehouse_accepts (Privilege grantID) (WithGrantOption grantID)
                  (prior_roles d) (update_plan d grantID) []) as Hacc.
    cbn [w driver issued app] in Hrun, Hrows.
    rewrite Hacc, (sent_all _ _ _ Hacc) in Hrun.
    destruct (Hrows Hacc) as (rows & Hshow & _ & Hroles).
    cbn [warehouse] in Hshow; injection Hshow as <-.
    rewrite warehouse_rows in Hroles.
    assert (Heq : Equal (roles d') (roles d) = true)
      by (rewrite Hroles; apply holders_update).
    exists d'; split; [exact Hrun|]. split; [exact Heq|].
    apply Equal_iff in Heq as Hin; destruct Hin as [H1 H2].
    split.
    + unfold changeDiff_roles, GetChange_roles; cbn [next_update prior_roles roles].
      now rewrite !Difference_nil.
    + intros db2; apply Update_unchanged.
      rewrite HasChanges_roles; cbn [next_update prior_roles roles].
      now rewrite Heq.
Qed.

(** The spec's example on a warehouse that holds A and B: the first update
    to B and C sends one revoke, one grant and the read; the second one,
    on what the first left, sends nothing. *)
Lemma Update_twice_example :
  match UpdateStreamGrant
          (d_update, mkDB (warehouse (str "SELECT") false [str "A"; str "B"]) []) with
  | Returns (None, (d', db')) =>
      issued db' =
        [Revoke (StreamGrant (str "D") (str "S") (str "T")) (str "A") (str "SELECT");
         Grant (StreamGrant (str "D") (str "S") (str "T")) (str "C") (str "SELECT") false;
         Show (StreamGrant (str "D") (str "S") (str "T"))] /\
      roles d' = [str "B"; str "C"] /\
      match UpdateStreamGrant (next_update [str "B"; str "C"] d', db') with
      | Returns (None, (_, db'')) => issued db'' = issued db'
      | _ => False
      end
  | _ => False
  end.
Proof. vm_compute; repeat split; reflexivity. Qed.
